(** * Authentication and token lifecycle of the CodeLock VS Code extension

    A shallow embedding of [src/auth/authManager.ts] (class [AuthManager]):
    the login rendezvous between the redirect callback, the cancellation
    signal and the five minute timer, the token exchange and refresh, and the
    credential storage over the two secret backends (keytar, then the VS Code
    secret storage).

    Conventions of the embedding.
    - JavaScript strings are [string]; a value of type [string | null] is an
      [option string].
    - [Date.now()] readings and [expiresAt] are integer milliseconds, in [Z];
      they stand for the doubles of the source on the safe integers.
    - A function that may throw returns a [Result]; [try]/[catch] is the
      combinator [try_catch].
    - The collaborators (the two secret stores, [fetch], the clock, the
      browser) are explicit inputs: each backend carries its content and its
      availability, each HTTP call takes the reply it receives. *)

From Stdlib Require Import String Ascii ZArith NArith List Bool Lia.
From Stdlib Require Import Decimal DecimalString DecimalPos DecimalZ DecimalFacts.
Import ListNotations.

Local Open Scope string_scope.
Local Open Scope Z_scope.

(* ================================================================== *)
(** ** The token record *)

(** [interface AuthToken] (authManager.ts, lines 5-10). The fields live in
    a module of their own because the class has a method that is also called
    [refreshToken]. *)
Module AuthToken.

Record t : Type := mk {
  accessToken : string;
  refreshToken : string;
  expiresAt : Z;
  userId : string
}.

End AuthToken.

Abbreviation AuthToken := AuthToken.t.

(* ================================================================== *)
(** ** [JSON.stringify] and [JSON.parse] on the token shape

    The two ECMAScript builtins used by [storeToken] and [loadToken].
    [JSON_stringify] follows SerializeJSONObject / QuoteJSONString: the
    properties in creation order, no white space, the escapes of
    QuoteJSONString. [JSON_parse] accepts the JSON texts that are one flat
    object whose members are strings or integer literals, with optional white
    space; any other text is reported as a syntax error ([None]), and so is
    an object without the four token fields (the source would hand such an
    object on unchecked; the stores of this extension hold what [storeToken]
    wrote). Characters are bytes: a [\u] escape above [00ff] is outside the
    fragment. *)
Module Json.

Definition dquote : ascii := "034"%char.
Definition backslash : ascii := "092"%char.

Definition hex_digit (n : N) : ascii :=
  if (n <? 10)%N then ascii_of_N (48 + n) else ascii_of_N (87 + n).

(** QuoteJSONString, one code unit. *)
Definition escape_char (c : ascii) : string :=
  let n := N_of_ascii c in
  if (n =? 8)%N then String backslash "b"
  else if (n =? 9)%N then String backslash "t"
  else if (n =? 10)%N then String backslash "n"
  else if (n =? 12)%N then String backslash "f"
  else if (n =? 13)%N then String backslash "r"
  else if (n =? 34)%N then String backslash (String dquote EmptyString)
  else if (n =? 92)%N then String backslash (String backslash EmptyString)
  else if (n <? 32)%N then
    String backslash
      (String "u" (String "0" (String "0"
         (String (hex_digit (n / 16)) (String (hex_digit (n mod 16)) EmptyString)))))
  else String c EmptyString.

Fixpoint escape (s : string) : string :=
  match s with
  | EmptyString => EmptyString
  | String c rest => escape_char c ++ escape rest
  end.

Definition quote (s : string) : string :=
  String dquote (escape s ++ String dquote EmptyString).

(** Number::toString on a safe integer: plain decimal digits, a leading
    minus. (The exponent form from 1e21 on, and [null] for [NaN] and the
    infinities, are outside the integers of this development.) *)
Definition number_to_string (z : Z) : string :=
  NilZero.string_of_int (Z.to_int z).

Definition JSON_stringify (t : AuthToken) : string :=
  "{" ++ quote "accessToken" ++ ":" ++ quote (AuthToken.accessToken t) ++ ","
      ++ quote "refreshToken" ++ ":" ++ quote (AuthToken.refreshToken t) ++ ","
      ++ quote "expiresAt" ++ ":" ++ number_to_string (AuthToken.expiresAt t) ++ ","
      ++ quote "userId" ++ ":" ++ quote (AuthToken.userId t) ++ "}".

(** *** Parsing *)

Inductive jvalue : Type :=
| JString (s : string)
| JNumber (z : Z).

Definition is_ws (c : ascii) : bool :=
  let n := N_of_ascii c in
  ((n =? 32) || (n =? 9) || (n =? 10) || (n =? 13))%N.

Fixpoint skip_ws (s : string) : string :=
  match s with
  | String c rest => if is_ws c then skip_ws rest else s
  | EmptyString => s
  end.

Definition hex_value (c : ascii) : option N :=
  let n := N_of_ascii c in
  if ((48 <=? n) && (n <=? 57))%N then Some (n - 48)%N
  else if ((97 <=? n) && (n <=? 102))%N then Some (n - 87)%N
  else if ((65 <=? n) && (n <=? 70))%N then Some (n - 55)%N
  else None.

Definition hex4 (a b c d : ascii) : option ascii :=
  match hex_value a, hex_value b, hex_value c, hex_value d with
  | Some 0%N, Some 0%N, Some h, Some l => Some (ascii_of_N (16 * h + l))
  | _, _, _, _ => None
  end.

Definition simple_escape (e : ascii) : option ascii :=
  let n := N_of_ascii e in
  if (n =? 34)%N then Some dquote
  else if (n =? 92)%N then Some backslash
  else if (n =? 47)%N then Some "/"%char
  else if (n =? 98)%N then Some (ascii_of_N 8)
  else if (n =? 102)%N then Some (ascii_of_N 12)
  else if (n =? 110)%N then Some (ascii_of_N 10)
  else if (n =? 114)%N then Some (ascii_of_N 13)
  else if (n =? 116)%N then Some (ascii_of_N 9)
  else None.

Definition cons_char (c : ascii) (r : option (string * string))
  : option (string * string) :=
  match r with
  | Some (s, rest) => Some (String c s, rest)
  | None => None
  end.

(** The characters of a string literal after its opening quote, up to and
    including the closing quote; returns the decoded string and what
    follows. *)
Fixpoint parse_string_body (s : string) : option (string * string) :=
  match s with
  | EmptyString => None
  | String c rest =>
      if (N_of_ascii c =? 34)%N then Some (EmptyString, rest)
      else if (N_of_ascii c =? 92)%N then
        match rest with
        | EmptyString => None
        | String e rest1 =>
            match simple_escape e with
            | Some d => cons_char d (parse_string_body rest1)
            | None =>
                if (N_of_ascii e =? 117)%N then
                  match rest1 with
                  | String h1 (String h2 (String h3 (String h4 rest2))) =>
                      match hex4 h1 h2 h3 h4 with
                      | Some d => cons_char d (parse_string_body rest2)
                      | None => None
                      end
                  | _ => None
                  end
                else None
            end
        end
      else if (N_of_ascii c <? 32)%N then None
      else cons_char c (parse_string_body rest)
  end.

Definition is_digit (c : ascii) : bool :=
  let n := N_of_ascii c in ((48 <=? n) && (n <=? 57))%N.

Fixpoint span_digits (s : string) : string * string :=
  match s with
  | String c rest =>
      if is_digit c then
        let (ds, r) := span_digits rest in (String c ds, r)
      else (EmptyString, s)
  | EmptyString => (EmptyString, EmptyString)
  end.

(** A fraction or an exponent continues the literal: not an integer. *)
Definition continues_number (s : string) : bool :=
  match s with
  | String c _ =>
      let n := N_of_ascii c in ((n =? 46) || (n =? 101) || (n =? 69))%N
  | EmptyString => false
  end.

Definition parse_digits (ds : string) : option N :=
  match ds with
  | EmptyString => None
  | String c (String _ _) =>
      if (N_of_ascii c =? 48)%N then None
      else option_map N.of_uint (NilZero.uint_of_string ds)
  | _ => option_map N.of_uint (NilZero.uint_of_string ds)
  end.

Definition parse_number (s : string) : option (Z * string) :=
  let (neg, s1) :=
    match s with
    | String c r => if (N_of_ascii c =? 45)%N then (true, r) else (false, s)
    | EmptyString => (false, s)
    end in
  let (ds, rest) := span_digits s1 in
  if continues_number rest then None
  else
    match parse_digits ds with
    | Some n => Some (if neg then Z.opp (Z.of_N n) else Z.of_N n, rest)
    | None => None
    end.

Definition parse_value (s : string) : option (jvalue * string) :=
  match s with
  | EmptyString => None
  | String c rest =>
      if (N_of_ascii c =? 34)%N then
        match parse_string_body rest with
        | Some (v, r) => Some (JString v, r)
        | None => None
        end
      else
        match parse_number s with
        | Some (z, r) => Some (JNumber z, r)
        | None => None
        end
  end.

(** One member [ "key" : value ], white space allowed around the tokens. *)
Definition parse_member (s : string) : option ((string * jvalue) * string) :=
  match skip_ws s with
  | String c rest =>
      if (N_of_ascii c =? 34)%N then
        match parse_string_body rest with
        | Some (k, r) =>
            match skip_ws r with
            | String c1 r1 =>
                if (N_of_ascii c1 =? 58)%N then
                  match parse_value (skip_ws r1) with
                  | Some (v, r2) => Some ((k, v), skip_ws r2)
                  | None => None
                  end
                else None
            | EmptyString => None
            end
        | None => None
        end
      else None
  | EmptyString => None
  end.

(** The members after the opening brace, the first one already known to be
    present; [fuel] bounds the number of members. *)
Fixpoint parse_members (fuel : nat) (s : string)
  : option (list (string * jvalue) * string) :=
  match fuel with
  | O => None
  | S fuel' =>
      match parse_member s with
      | Some (m, String c rest) =>
          if (N_of_ascii c =? 125)%N then Some ([m], rest)
          else if (N_of_ascii c =? 44)%N then
            match parse_members fuel' rest with
            | Some (ms, r) => Some (m :: ms, r)
            | None => None
            end
          else None
      | _ => None
      end
  end.

Definition parse_object (s : string) : option (list (string * jvalue)) :=
  match skip_ws s with
  | String c rest =>
      if (N_of_ascii c =? 123)%N then
        match skip_ws rest with
        | String c1 rest1 =>
            if (N_of_ascii c1 =? 125)%N then
              match skip_ws rest1 with
              | EmptyString => Some []
              | _ => None
              end
            else
              match parse_members (String.length s) rest with
              | Some (ms, r) =>
                  match skip_ws r with
                  | EmptyString => Some ms
                  | _ => None
                  end
              | None => None
              end
        | EmptyString => None
        end
      else None
  | EmptyString => None
  end.

(** Property lookup on the parsed object: a repeated key keeps its last
    value. *)
Fixpoint get_member (k : string) (ms : list (string * jvalue)) : option jvalue :=
  match ms with
  | [] => None
  | (k', v) :: rest =>
      match get_member k rest with
      | Some v' => Some v'
      | None => if String.eqb k k' then Some v else None
      end
  end.

Definition get_string (k : string) (ms : list (string * jvalue)) : option string :=
  match get_member k ms with
  | Some (JString s) => Some s
  | _ => None
  end.

Definition get_number (k : string) (ms : list (string * jvalue)) : option Z :=
  match get_member k ms with
  | Some (JNumber z) => Some z
  | _ => None
  end.

Definition token_of_members (ms : list (string * jvalue)) : option AuthToken :=
  match get_string "accessToken" ms, get_string "refreshToken" ms,
        get_number "expiresAt" ms, get_string "userId" ms with
  | Some a, Some r, Some e, Some u => Some (AuthToken.mk a r e u)
  | _, _, _, _ => None
  end.

(** [JSON.parse(text)] read as an [AuthToken]; [None] stands for the
    [SyntaxError] it throws. *)
Definition JSON_parse (text : string) : option AuthToken :=
  match parse_object text with
  | Some ms => token_of_members ms
  | None => None
  end.

End Json.

(* ================================================================== *)
(** ** Errors, results and the collaborators *)

(** What the code throws. The first seven are the [new Error(...)] of the
    source, named after the error kinds they stand for; [PlatformError] is an
    error thrown by a collaborator (keytar, the secret storage, [fetch],
    [response.json()], [JSON.parse], [openExternal]) and carries the text
    [String(error)] gives for it. *)
Inductive AuthError : Type :=
| ProviderError (error : string)
| InvalidState
| MissingCode
| Timeout
| ExchangeFailed (statusText : string)
| RefreshFailed (statusText : string)
| CancelledOrFailed
| LoginFailed (cause : AuthError)
| PlatformError (text : string).

(** [String(error)]: the text a template literal makes of the error. *)
Fixpoint error_to_string (e : AuthError) : string :=
  match e with
  | ProviderError error => "Error: Authentication error: " ++ error
  | InvalidState => "Error: Invalid authentication state"
  | MissingCode => "Error: No authorization code received"
  | Timeout => "Error: Authentication timeout"
  | ExchangeFailed statusText => "Error: Token exchange failed: " ++ statusText
  | RefreshFailed statusText => "Error: Token refresh failed: " ++ statusText
  | CancelledOrFailed => "Error: Authentication was cancelled or failed"
  | LoginFailed cause => "Error: Login failed: " ++ error_to_string cause
  | PlatformError text => text
  end.

(** The outcome of running a piece of asynchronous code to its end: it
    returns, it throws, or it waits for a promise that is never settled. *)
Inductive Result (A : Type) : Type :=
| Ok (a : A)
| Throw (e : AuthError)
| Hang.

Arguments Ok {A} a.
Arguments Throw {A} e.
Arguments Hang {A}.

(** The reply to one [fetch] followed by [response.json()]. A request that
    is never answered has no reply here: what is proved of a call says what
    it does once the server has answered. *)
Inductive Reply (D : Type) : Type :=
| FetchRejects (text : string)
| NotOk (statusText : string)
| OkJson (data : D)
| OkBadJson (text : string).

Arguments FetchRejects {D} text.
Arguments NotOk {D} statusText.
Arguments OkJson {D} data.
Arguments OkBadJson {D} text.

(** Body of a successful authorization-code exchange. *)
Record ExchangeData : Type := mkExchangeData {
  ex_access_token : string;
  ex_refresh_token : string;
  ex_expires_in : Z;
  ex_user_id : string
}.

(** Body of a successful refresh; the [refresh_token] field may be absent. *)
Record RefreshData : Type := mkRefreshData {
  access_token : string;
  refresh_token : option string;
  expires_in : Z;
  user_id : string
}.

(** The remote endpoints, as functions of what the request carries. *)
Record Server : Type := mkServer {
  token_by_code : string -> Reply ExchangeData;
  token_by_refresh : string -> Reply RefreshData;
  revoke : string -> Reply unit
}.

(** One secret backend, restricted to the single entry the extension uses
    (service [SERVICE_NAME], key [TOKEN_KEY]): what it holds, and for each
    operation whether it currently fails and with which error text. A failed
    operation leaves the entry as it was. *)
Record Backend : Type := mkBackend {
  stored : option string;
  read_fault : option string;
  write_fault : option string;
  delete_fault : option string
}.

(** The calls made to the backends, oldest first. *)
Inductive StoreCall : Type :=
| KeytarSetPassword (value : string)
| KeytarGetPassword
| KeytarDeletePassword
| SecretsStore (value : string)
| SecretsGet
| SecretsDelete.

(** The fields of an [AuthManager], with the two stores it talks to. *)
Record Manager : Type := mkManager {
  currentToken : option AuthToken;
  keytar : Backend;
  secrets : Backend;
  calls : list StoreCall
}.

(** JavaScript truthiness of a [string | null | undefined]. *)
Definition truthy (v : option string) : bool :=
  match v with
  | Some s => negb (String.eqb s EmptyString)
  | None => false
  end.

(** [a || b] where [a] is a [string | undefined] and [b] a string. *)
Definition js_or (a : option string) (b : string) : string :=
  match a with
  | Some s => if String.eqb s EmptyString then b else s
  | None => b
  end.

(** [URLSearchParams.get]: the first value of the name, or [null]. *)
Fixpoint query_get (name : string) (q : list (string * string)) : option string :=
  match q with
  | [] => None
  | (k, v) :: rest => if String.eqb k name then Some v else query_get name rest
  end.

(* ================================================================== *)
(** ** The monad of the class methods: state, exceptions, waiting *)

Definition M (A : Type) : Type := Manager -> Result A * Manager.

Definition ret {A : Type} (a : A) : M A := fun s => (Ok a, s).

Definition throw {A : Type} (e : AuthError) : M A := fun s => (Throw e, s).

Definition bind {A B : Type} (m : M A) (k : A -> M B) : M B :=
  fun s =>
    match m s with
    | (Ok a, s') => k a s'
    | (Throw e, s') => (Throw e, s')
    | (Hang, s') => (Hang, s')
    end.

(** [try { body } catch (error) { handler }]. *)
Definition try_catch {A : Type} (body : M A) (handler : AuthError -> M A) : M A :=
  fun s =>
    match body s with
    | (Throw e, s') => handler e s'
    | r => r
    end.

(** Lifting a computation that does not touch the manager. *)
Definition lift {A : Type} (r : Result A) : M A := fun s => (r, s).

Declare Scope auth_scope.
Delimit Scope auth_scope with auth.
Notation "x <- m ;; k" := (bind m (fun x => k))
  (at level 61, m at next level, right associativity) : auth_scope.
Notation "m ;; k" := (bind m (fun _ => k))
  (at level 61, right associativity) : auth_scope.

(* ================================================================== *)
(** ** [URLSearchParams.toString]

    The application/x-www-form-urlencoded serializer behind
    [params.toString()] in [buildAuthUrl]: a space becomes [+], the ASCII
    letters and digits and [* - . _] stay, every other code unit is written
    as the percent-encoded bytes of its UTF-8 form (two bytes for the code
    units from 128 to 255). *)
Module Url.

Definition hex_upper (n : N) : ascii :=
  if (n <? 10)%N then ascii_of_N (48 + n) else ascii_of_N (55 + n).

Definition percent (n : N) : string :=
  String "%" (String (hex_upper (n / 16)) (String (hex_upper (n mod 16)) EmptyString)).

Definition unreserved (c : ascii) : bool :=
  let n := N_of_ascii c in
  (((48 <=? n) && (n <=? 57)) || ((65 <=? n) && (n <=? 90))
   || ((97 <=? n) && (n <=? 122))
   || (n =? 42) || (n =? 45) || (n =? 46) || (n =? 95))%N.

Definition encode_char (c : ascii) : string :=
  let n := N_of_ascii c in
  if (n =? 32)%N then "+"
  else if unreserved c then String c EmptyString
  else if (n <? 128)%N then percent n
  else percent (192 + n / 64) ++ percent (128 + n mod 64).

Fixpoint urlencode (s : string) : string :=
  match s with
  | EmptyString => EmptyString
  | String c rest => encode_char c ++ urlencode rest
  end.

(** The name-value pairs joined by [&], each as [name=value]. *)
Fixpoint serialize (params : list (string * string)) : string :=
  match params with
  | [] => EmptyString
  | [(k, v)] => urlencode k ++ "=" ++ urlencode v
  | (k, v) :: rest => urlencode k ++ "=" ++ urlencode v ++ "&" ++ serialize rest
  end.

(** Reading the serializer's output back, one value: [+] is a space, [%XX]
    a byte, and the two-byte UTF-8 forms give the code units from 128 to
    255. Used to show that the serializer loses nothing. *)
Definition unhex (c : ascii) : option N :=
  let n := N_of_ascii c in
  if ((48 <=? n) && (n <=? 57))%N then Some (n - 48)%N
  else if ((65 <=? n) && (n <=? 70))%N then Some (n - 55)%N
  else None.

Definition byte_of (h l : ascii) : option N :=
  match unhex h, unhex l with
  | Some a, Some b => Some (16 * a + b)%N
  | _, _ => None
  end.

Definition cons_option (c : ascii) (r : option string) : option string :=
  match r with
  | Some s => Some (String c s)
  | None => None
  end.

Fixpoint urldecode (s : string) : option string :=
  match s with
  | EmptyString => Some EmptyString
  | String c rest =>
      if (N_of_ascii c =? 43)%N then cons_option " " (urldecode rest)
      else if (N_of_ascii c =? 37)%N then
        match rest with
        | String h (String l rest1) =>
            match byte_of h l with
            | Some n =>
                if (n <? 128)%N then cons_option (ascii_of_N n) (urldecode rest1)
                else
                  match rest1 with
                  | String p (String h2 (String l2 rest2)) =>
                      if (N_of_ascii p =? 37)%N then
                        match byte_of h2 l2 with
                        | Some m =>
                            if ((194 <=? n) && (n <=? 195) && (128 <=? m) && (m <=? 191))%N
                            then cons_option (ascii_of_N (64 * (n - 192) + (m - 128)))
                                             (urldecode rest2)
                            else None
                        | None => None
                        end
                      else None
                  | _ => None
                  end
            | None => None
            end
        | _ => None
        end
      else cons_option c (urldecode rest)
  end.

Fixpoint all_chars (f : ascii -> bool) (s : string) : bool :=
  match s with
  | EmptyString => true
  | String c rest => f c && all_chars f rest
  end.

End Url.

(* ================================================================== *)
(** ** The class [AuthManager] *)

Module AuthManager.

Local Open Scope auth_scope.

Definition SERVICE_NAME : string := "codelock-vscode".
Definition TOKEN_KEY : string := "auth-token".

(** *** Field access and the backend primitives *)

Definition get_currentToken : M (option AuthToken) :=
  fun s => (Ok (currentToken s), s).

Definition set_currentToken (v : option AuthToken) : M unit :=
  fun s => (Ok tt, mkManager v (keytar s) (secrets s) (calls s)).

Definition record (c : StoreCall) (s : Manager) : Manager :=
  mkManager (currentToken s) (keytar s) (secrets s) (calls s ++ [c]).

Definition with_keytar (b : Backend) (s : Manager) : Manager :=
  mkManager (currentToken s) b (secrets s) (calls s).

Definition with_secrets (b : Backend) (s : Manager) : Manager :=
  mkManager (currentToken s) (keytar s) b (calls s).

Definition put (v : option string) (b : Backend) : Backend :=
  mkBackend v (read_fault b) (write_fault b) (delete_fault b).

(** [keytar.setPassword(SERVICE_NAME, TOKEN_KEY, value)]. *)
Definition keytar_setPassword (value : string) : M unit :=
  fun s =>
    let s1 := record (KeytarSetPassword value) s in
    match write_fault (keytar s1) with
    | Some text => (Throw (PlatformError text), s1)
    | None => (Ok tt, with_keytar (put (Some value) (keytar s1)) s1)
    end.

(** [keytar.getPassword(SERVICE_NAME, TOKEN_KEY)]. *)
Definition keytar_getPassword : M (option string) :=
  fun s =>
    let s1 := record KeytarGetPassword s in
    match read_fault (keytar s1) with
    | Some text => (Throw (PlatformError text), s1)
    | None => (Ok (stored (keytar s1)), s1)
    end.

(** [keytar.deletePassword(SERVICE_NAME, TOKEN_KEY)]; its boolean is not
    used by the caller. *)
Definition keytar_deletePassword : M unit :=
  fun s =>
    let s1 := record KeytarDeletePassword s in
    match delete_fault (keytar s1) with
    | Some text => (Throw (PlatformError text), s1)
    | None => (Ok tt, with_keytar (put None (keytar s1)) s1)
    end.

(** [this.context.secrets.store(TOKEN_KEY, value)]. *)
Definition secrets_store (value : string) : M unit :=
  fun s =>
    let s1 := record (SecretsStore value) s in
    match write_fault (secrets s1) with
    | Some text => (Throw (PlatformError text), s1)
    | None => (Ok tt, with_secrets (put (Some value) (secrets s1)) s1)
    end.

(** [this.context.secrets.get(TOKEN_KEY)]. *)
Definition secrets_get : M (option string) :=
  fun s =>
    let s1 := record SecretsGet s in
    match read_fault (secrets s1) with
    | Some text => (Throw (PlatformError text), s1)
    | None => (Ok (stored (secrets s1)), s1)
    end.

(** [this.context.secrets.delete(TOKEN_KEY)]. *)
Definition secrets_delete : M unit :=
  fun s =>
    let s1 := record SecretsDelete s in
    match delete_fault (secrets s1) with
    | Some text => (Throw (PlatformError text), s1)
    | None => (Ok tt, with_secrets (put None (secrets s1)) s1)
    end.

(** [JSON.parse(text)], which throws a [SyntaxError] on a malformed text. *)
Definition JSON_parse (text : string) : M AuthToken :=
  match Json.JSON_parse text with
  | Some t => ret t
  | None => throw (PlatformError "SyntaxError")
  end.

(** *** Storage (lines 246-297) *)

Definition storeToken (token : AuthToken) : M unit :=
  try_catch
    (keytar_setPassword (Json.JSON_stringify token))
    (fun _ => secrets_store (Json.JSON_stringify token)).

(** The string behind a truthy [string | null]. *)
Definition text_of (v : option string) : string :=
  match v with
  | Some text => text
  | None => EmptyString
  end.

Definition loadToken : M (option AuthToken) :=
  try_catch
    (tokenStr <- keytar_getPassword ;;
     if truthy tokenStr then
       t <- JSON_parse (text_of tokenStr) ;; ret (Some t)
     else
       fallbackTokenStr <- secrets_get ;;
       if truthy fallbackTokenStr then
         t <- JSON_parse (text_of fallbackTokenStr) ;; ret (Some t)
       else ret None)
    (fun _ => ret None).

Definition clearToken : M unit :=
  try_catch keytar_deletePassword (fun _ => ret tt) ;;
  try_catch secrets_delete (fun _ => ret tt).

(** *** The HTTP calls (lines 169-244) *)

(** [exchangeCodeForToken(code)]; [now] is the reading of [Date.now()] when
    the token is built. The reply's [expires_in] is an integer; the sum is
    the one the source computes as long as the product and the sum are safe
    integers. *)
Definition exchangeCodeForToken (srv : Server) (now : Z) (code : string)
  : Result AuthToken :=
  match token_by_code srv code with
  | FetchRejects text => Throw (PlatformError text)
  | NotOk statusText => Throw (ExchangeFailed statusText)
  | OkBadJson text => Throw (PlatformError text)
  | OkJson data =>
      Ok (AuthToken.mk (ex_access_token data)
                       (ex_refresh_token data)
                       (now + ex_expires_in data * 1000)
                       (ex_user_id data))
  end.

(** [refreshToken(refreshToken)]; the expiry as in [exchangeCodeForToken]. *)
Definition refreshToken (srv : Server) (now : Z) (refreshToken : string)
  : Result AuthToken :=
  match token_by_refresh srv refreshToken with
  | FetchRejects text => Throw (PlatformError text)
  | NotOk statusText => Throw (RefreshFailed statusText)
  | OkBadJson text => Throw (PlatformError text)
  | OkJson data =>
      Ok (AuthToken.mk (access_token data)
                       (js_or (refresh_token data) refreshToken)
                       (now + expires_in data * 1000)
                       (user_id data))
  end.

(** [revokeToken(accessToken)]: only a rejected [fetch] throws; the response
    is not looked at. *)
Definition revokeToken (srv : Server) (accessToken : string) : Result unit :=
  match revoke srv accessToken with
  | FetchRejects text => Throw (PlatformError text)
  | _ => Ok tt
  end.

(** *** Token lifecycle (lines 51-93) *)

(** How a block ends: it falls through to the next statement, or it executes
    a [return]. *)
Inductive Flow (A : Type) : Type :=
| Next
| Return (a : A).

Arguments Next {A}.
Arguments Return {A} a.

(** [logout()]. *)
Definition logout (srv : Server) : M unit :=
  try_catch
    (cur <- get_currentToken ;;
     match cur with
     | Some tok => lift (revokeToken srv (AuthToken.accessToken tok))
     | None => ret tt
     end)
    (fun _ => ret tt) ;;
  clearToken ;;
  set_currentToken None.

(** [getValidToken()]; [now] is the reading of [Date.now()] in the expiry
    test and [now_refresh] the later one inside [refreshToken]. *)
Definition getValidToken (srv : Server) (now now_refresh : Z) : M (option string) :=
  cur0 <- get_currentToken ;;
  match cur0 with
  | None => t <- loadToken ;; set_currentToken t
  | Some _ => ret tt
  end ;;
  cur1 <- get_currentToken ;;
  match cur1 with
  | None => ret None
  | Some tok =>
      flow <-
        (if now >=? AuthToken.expiresAt tok then
           try_catch
             (fresh <- lift (refreshToken srv now_refresh (AuthToken.refreshToken tok)) ;;
              set_currentToken (Some fresh) ;;
              storeToken fresh ;;
              ret Next)
             (fun _ =>
                clearToken ;;
                set_currentToken None ;;
                ret (Return None))
         else ret Next) ;;
      match flow with
      | Return v => ret v
      | Next =>
          cur2 <- get_currentToken ;;
          ret (option_map AuthToken.accessToken cur2)
      end
  end.

(** [isAuthenticated()]. *)
Definition isAuthenticated (s : Manager) : bool :=
  match currentToken s with
  | Some _ => true
  | None => false
  end.

(** *** The login rendezvous (lines 119-167)

    [waitForAuthCallback] creates a promise and three sources of signals:
    the timer, the URI handler and the cancellation listener. The state below
    is what the closures share. A cleared or fired timer does not fire, and a
    disposed handler receives nothing: the platform gives that. The
    cancellation listener is never disposed. *)

Inductive Promise : Type :=
| Pending
| Fulfilled (token : option AuthToken)
| Rejected (e : AuthError).

Record Waiting : Type := mkWaiting {
  promise : Promise;
  timer_armed : bool;
  handler_registered : bool;
  exchanging : option string
}.

Inductive Signal : Type :=
| TimerFires
| UriDelivered (query : list (string * string))
| CancellationRequested
| ExchangeSettles (now : Z).

(** [resolve(v)] and [reject(e)]: a settled promise ignores them. *)
Definition resolve (v : option AuthToken) (w : Waiting) : Waiting :=
  match promise w with
  | Pending => mkWaiting (Fulfilled v) (timer_armed w) (handler_registered w) (exchanging w)
  | _ => w
  end.

Definition reject (e : AuthError) (w : Waiting) : Waiting :=
  match promise w with
  | Pending => mkWaiting (Rejected e) (timer_armed w) (handler_registered w) (exchanging w)
  | _ => w
  end.

Definition clearTimeout (w : Waiting) : Waiting :=
  mkWaiting (promise w) false (handler_registered w) (exchanging w).

Definition dispose (w : Waiting) : Waiting :=
  mkWaiting (promise w) (timer_armed w) false (exchanging w).

(** The state right after the three registrations. *)
Definition registered : Waiting := mkWaiting Pending true true None.

(** The [setTimeout] callback: [disposable.dispose()], then [reject]. The
    timer that runs it has fired and is no longer armed, which is the state
    [clearTimeout] leaves as well. *)
Definition onTimeout (w : Waiting) : Waiting :=
  reject Timeout (dispose (clearTimeout w)).

(** [state !== sessionId]. *)
Definition state_differs (state : option string) (sessionId : string) : bool :=
  match state with
  | Some st => negb (String.eqb st sessionId)
  | None => true
  end.

(** [handleUri], up to its [await]. *)
Definition handleUri (sessionId : string) (query : list (string * string))
  (w : Waiting) : Waiting :=
  let w1 := dispose (clearTimeout w) in
  let code := query_get "code" query in
  let state := query_get "state" query in
  let error := query_get "error" query in
  if truthy error then reject (ProviderError (text_of error)) w1
  else if state_differs state sessionId then reject InvalidState w1
  else if negb (truthy code) then reject MissingCode w1
  else mkWaiting (promise w1) (timer_armed w1) (handler_registered w1)
                 (Some (text_of code)).

(** [handleUri] after its [await]: the exchange has an outcome. *)
Definition onExchange (srv : Server) (now : Z) (code : string) (w : Waiting)
  : Waiting :=
  let w1 := mkWaiting (promise w) (timer_armed w) (handler_registered w) None in
  match exchangeCodeForToken srv now code with
  | Ok token => resolve (Some token) w1
  | Throw err => reject err w1
  | Hang => w
  end.

(** The cancellation listener. *)
Definition onCancellationRequested (w : Waiting) : Waiting :=
  resolve None (dispose (clearTimeout w)).

(** One signal reaching [waitForAuthCallback]. *)
Definition signal (srv : Server) (sessionId : string) (w : Waiting) (sg : Signal)
  : Waiting :=
  match sg with
  | TimerFires => if timer_armed w then onTimeout w else w
  | UriDelivered query =>
      if handler_registered w then handleUri sessionId query w else w
  | CancellationRequested => onCancellationRequested w
  | ExchangeSettles now =>
      match exchanging w with
      | Some code => onExchange srv now code w
      | None => w
      end
  end.

Definition signals (srv : Server) (sessionId : string) (sgs : list Signal)
  (w : Waiting) : Waiting :=
  fold_left (signal srv sessionId) sgs w.

(** [waitForAuthCallback(sessionId, cancellationToken)] awaited by the
    caller, the signals that arrive being [sgs]. *)
Definition waitForAuthCallback (srv : Server) (sessionId : string)
  (sgs : list Signal) : Result (option AuthToken) :=
  match promise (signals srv sessionId sgs registered) with
  | Pending => Hang
  | Fulfilled token => Ok token
  | Rejected e => Throw e
  end.

(** The first redirect in a list of signals. *)
Fixpoint first_uri (sgs : list Signal) : option (list (string * string)) :=
  match sgs with
  | [] => None
  | UriDelivered query :: _ => Some query
  | _ :: rest => first_uri rest
  end.

(** [vscode.env.openExternal(...)]: [open_fault] is the error it throws, if
    it does. *)
Definition openExternal (open_fault : option string) : M unit :=
  match open_fault with
  | Some text => throw (PlatformError text)
  | None => ret tt
  end.

(** [login()] (lines 22-49); [sessionId] is the value of [uuidv4()]. *)
Definition login (srv : Server) (open_fault : option string)
  (sessionId : string) (sgs : list Signal) : M unit :=
  try_catch
    (openExternal open_fault ;;
     token <- lift (waitForAuthCallback srv sessionId sgs) ;;
     match token with
     | Some tok =>
         storeToken tok ;;
         set_currentToken (Some tok)
     | None => throw CancelledOrFailed
     end)
    (fun error => throw (LoginFailed error)).

(** *** The remaining methods (lines 95-117) *)


(** [getUserId()]: [this.currentToken?.userId || null]. *)
Definition getUserId (s : Manager) : option string :=
  match currentToken s with
  | Some tok =>
      if String.eqb (AuthToken.userId tok) EmptyString then None
      else Some (AuthToken.userId tok)
  | None => None
  end.

(** [buildAuthUrl(sessionId)]; [apiEndpoint] is the configured endpoint. *)
Definition buildAuthUrl (apiEndpoint sessionId : string) : string :=
  (apiEndpoint ++ "/auth/authorize?"
   ++ Url.serialize [("client_id", "codelock-vscode");
                     ("response_type", "code");
                     ("scope", "read write");
                     ("state", sessionId);
                     ("redirect_uri", "vscode://codelock-ai.codelock/auth-callback")])%string.

End AuthManager.

(** The seven ways a login attempt ends. *)
Inductive Outcome : Type :=
| OCompleted
| OCancelled
| OTimeout
| OProviderError
| OInvalidState
| OMissingCode
| OExchangeFailed.

(** The outcome a settled promise of [waitForAuthCallback] stands for; an
    error thrown by the transport during the exchange counts as a failed
    exchange. *)
Definition outcome_of (p : AuthManager.Promise) : option Outcome :=
  match p with
  | AuthManager.Pending => None
  | AuthManager.Fulfilled (Some _) => Some OCompleted
  | AuthManager.Fulfilled None => Some OCancelled
  | AuthManager.Rejected Timeout => Some OTimeout
  | AuthManager.Rejected (ProviderError _) => Some OProviderError
  | AuthManager.Rejected InvalidState => Some OInvalidState
  | AuthManager.Rejected MissingCode => Some OMissingCode
  | AuthManager.Rejected (ExchangeFailed _) => Some OExchangeFailed
  | AuthManager.Rejected (PlatformError _) => Some OExchangeFailed
  | AuthManager.Rejected _ => None
  end.

(* ================================================================== *)
(** ** The interceptors of [ApiClient] (src/api/apiClient.ts, lines 86-108) *)

Module ApiClient.





(** What the response interceptor sees of the error it is given:
    [error.response?.status]. *)
Record AxiosError : Type := mkAxiosError {
  status : option Z;
  message : string
}.

Inductive UiCall : Type :=
| ShowErrorMessage (text : string)
| ExecuteCommand (command : string).

(** How the promise returned by the error handler ends. *)
Inductive Handled : Type :=
| Resolves
| RejectsWith (error : AxiosError)
| RejectsOther (e : AuthError)
| NeverSettles.

Definition is_401 (error : AxiosError) : bool :=
  match status error with
  | Some code => code =? 401
  | None => false
  end.

(** What running a registered command does: how it ends, the user
    interface calls it makes, and the manager it leaves. *)
Definition Command : Type := Manager -> Result unit * list UiCall * Manager.

(** The error handler of the response interceptor; [login_command] is what
    [executeCommand('seguro.login')] runs (the extension registers a command
    that calls [authManager.login()]; with no such command registered,
    [executeCommand] rejects). Returns how the handler ends, the user
    interface calls made, and the manager. *)
Definition responseInterceptor (srv : Server) (now now_refresh : Z)
  (login_command : Command) (error : AxiosError) (s : Manager)
  : Handled * list UiCall * Manager :=
  if is_401 error then
    match AuthManager.getValidToken srv now now_refresh s with
    | (Ok token, s1) =>
        if negb (truthy token) then
          let shown := ShowErrorMessage "Authentication expired. Please login again." in
          match login_command s1 with
          | (Ok _, ui, s2) =>
              (RejectsWith error, shown :: ExecuteCommand "seguro.login" :: ui, s2)
          | (Throw e, ui, s2) =>
              (RejectsOther e, shown :: ExecuteCommand "seguro.login" :: ui, s2)
          | (Hang, ui, s2) =>
              (NeverSettles, shown :: ExecuteCommand "seguro.login" :: ui, s2)
          end
        else (RejectsWith error, [], s1)
    | (Throw e, s1) => (RejectsOther e, [], s1)
    | (Hang, s1) => (NeverSettles, [], s1)
    end
  else (RejectsWith error, [], s).

End ApiClient.

(** Scenario values, after the scenarios of the specification. *)
Module Scenario.

Definition nonce : string := "abc123".

Definition token1 : AuthToken := AuthToken.mk "AT1" "RT1" 3600000 "u1".

Definition healthy : Backend := mkBackend None None None None.

Definition holding (text : string) : Backend := mkBackend (Some text) None None None.

(** A backend none of whose operations works. *)
Definition unavailable (content : option string) : Backend :=
  mkBackend content (Some "Error: unavailable") (Some "Error: unavailable")
            (Some "Error: unavailable").

(** A server that answers every request with the given bodies. *)
Definition server (ex : Reply ExchangeData) (rf : Reply RefreshData) : Server :=
  mkServer (fun _ => ex) (fun _ => rf) (fun _ => OkJson tt).

Definition exchange1 : ExchangeData := mkExchangeData "AT1" "RT1" 3600 "u1".

Definition token2 : AuthToken := AuthToken.mk "AT2" "RT1" 7200000 "u1".

(** keytar holds an earlier token, can be read, and refuses writes. *)
Definition stale_keytar : Backend :=
  mkBackend (Some (Json.JSON_stringify token1)) None (Some "Error: locked") None.

(** keytar holds nothing, can be read, and refuses writes. *)
Definition readonly_keytar : Backend :=
  mkBackend None None (Some "Error: locked") None.

(** A cached token that expired one second before the clock reading 5000. *)
Definition expired_token : AuthToken := AuthToken.mk "AT1" "RT1" 4000 "u1".

(** keytar holds the expired token and refuses to delete it. *)
Definition undeletable_keytar : Backend :=
  mkBackend (Some (Json.JSON_stringify expired_token)) None None (Some "Error: locked").

End Scenario.

(** The token [getValidToken] works with: the cached one, or else the one
    [loadToken] finds. *)
Definition token_in_use (s : Manager) : option AuthToken :=
  match currentToken s with
  | Some tok => Some tok
  | None =>
      match fst (AuthManager.loadToken s) with
      | Ok v => v
      | _ => None
      end
  end.

(** What [clearToken] leaves of a backend. *)
Definition cleared (b : Backend) : Backend :=
  match delete_fault b with
  | None => AuthManager.put None b
  | Some _ => b
  end.

(** The states [waitForAuthCallback] can be in: the one after the
    registrations, and any state a signal leads to from one of them. *)
Inductive reachable (srv : Server) (sessionId : string)
  : AuthManager.Waiting -> Prop :=
| reach_registered : reachable srv sessionId AuthManager.registered
| reach_signal (w : AuthManager.Waiting) (sg : AuthManager.Signal) :
    reachable srv sessionId w ->
    reachable srv sessionId (AuthManager.signal srv sessionId w sg).

(** What holds of every reachable state: while the promise is pending,
    either all waiters are in place, or the redirect has been accepted and
    the exchange is in flight; once it is settled, the timer is off, the
    handler is disposed, and the outcome is one of the seven. *)
Definition coherent (w : AuthManager.Waiting) : Prop :=
  match AuthManager.promise w with
  | AuthManager.Pending =>
      (AuthManager.timer_armed w = true /\
       AuthManager.handler_registered w = true /\
       AuthManager.exchanging w = None) \/
      (AuthManager.timer_armed w = false /\
       AuthManager.handler_registered w = false /\
       AuthManager.exchanging w <> None)
  | p =>
      AuthManager.timer_armed w = false /\
      AuthManager.handler_registered w = false /\
      outcome_of p <> None
  end.

(** The integers every IEEE double holds exactly, and on which the sums and
    products of JavaScript are the ones of [Z] as long as the result is one
    of them too ([Number.MIN_SAFE_INTEGER] to [Number.MAX_SAFE_INTEGER]).
    [Date.now()] is always one. The numbers of this development are
    integers; a statement that depends on the arithmetic or on the printed
    form of a number carries this range as a hypothesis. *)
Definition safe_integer (z : Z) : Prop :=
  - 9007199254740991 <= z <= 9007199254740991.


(* ================================================================== *)
(** * Properties *)

(** ** The JSON round trip *)

Section JsonRoundTrip.

Import Json.

Lemma append_assoc3 (a b c : string) : ((a ++ b) ++ c = a ++ (b ++ c))%string.
Proof. induction a as [|x a IH]; cbn; [reflexivity | now rewrite IH]. Qed.

Lemma append_String c s r : (String c s ++ r)%string = String c (s ++ r).
Proof. reflexivity. Qed.

(** Reading back an escaped string stops at the closing quote and gives the
    string. *)
Lemma parse_string_body_escape s rest :
  parse_string_body (escape s ++ String dquote rest) = Some (s, rest).
Proof.
  induction s as [|a s IH]; [reflexivity|].
  cbn [escape].
  destruct a as [[] [] [] [] [] [] [] []]; cbn; rewrite IH; reflexivity.
Qed.

Lemma span_digits_uint u c rest :
  is_digit c = false ->
  span_digits (NilEmpty.string_of_uint u ++ String c rest)
  = (NilEmpty.string_of_uint u, String c rest).
Proof.
  intro Hc. induction u; cbn [NilEmpty.string_of_uint append];
    try (cbn [span_digits]; rewrite IHu; reflexivity).
  cbn [span_digits]. rewrite Hc. reflexivity.
Qed.

(** The decimal digits of a positive number do not start with a zero. *)
Lemma to_uint_no_leading_zero p d : Pos.to_uint p <> D0 d.
Proof.
  intro H.
  assert (Hn : unorm (Pos.to_uint p) = Pos.to_uint p).
  { rewrite <- DecimalPos.Unsigned.to_of, DecimalPos.Unsigned.of_to. reflexivity. }
  rewrite H in Hn. unfold unorm in Hn. cbn [nzhead] in Hn.
  pose proof (nb_digits_nzhead d) as Hlen.
  destruct (nzhead d) eqn:E; try (rewrite Hn in Hlen; cbn in Hlen; lia).
  injection Hn as <-. apply (DecimalPos.Unsigned.to_uint_nonzero p). exact H.
Qed.

Lemma string_of_uint_head u :
  match NilEmpty.string_of_uint u with
  | EmptyString => u = Nil
  | String c _ => (N_of_ascii c =? 48)%N = true -> exists d, u = D0 d
  end.
Proof.
  destruct u; cbn; try reflexivity; try discriminate. intros _. eauto.
Qed.

Lemma string_of_uint_pos p :
  NilZero.string_of_uint (Pos.to_uint p) = NilEmpty.string_of_uint (Pos.to_uint p).
Proof.
  unfold NilZero.string_of_uint. destruct (Pos.to_uint p) eqn:E; try reflexivity.
  exfalso; exact (DecimalPos.Unsigned.to_uint_nonnil p E).
Qed.

Lemma parse_digits_pos p :
  parse_digits (NilEmpty.string_of_uint (Pos.to_uint p)) = Some (Npos p).
Proof.
  pose proof (string_of_uint_head (Pos.to_uint p)) as Hh.
  assert (Hu : option_map N.of_uint
                 (NilZero.uint_of_string (NilEmpty.string_of_uint (Pos.to_uint p)))
               = Some (Npos p)).
  { pose proof (NilZero.usu (Pos.to_uint p) (DecimalPos.Unsigned.to_uint_nonnil p)) as Hs.
    rewrite string_of_uint_pos in Hs. rewrite Hs. cbn [option_map]. f_equal.
    apply DecimalPos.Unsigned.of_to. }
  unfold parse_digits.
  destruct (NilEmpty.string_of_uint (Pos.to_uint p)) as [|c [|c' s']] eqn:E.
  - exfalso. exact (DecimalPos.Unsigned.to_uint_nonnil p Hh).
  - exact Hu.
  - destruct (N_of_ascii c =? 48)%N eqn:E0; [|exact Hu].
    destruct (Hh eq_refl) as [d Hd]. exfalso.
    exact (to_uint_no_leading_zero p d Hd).
Qed.

(** An integer literal followed by a character that cannot continue it is
    read back as the integer. *)
Lemma parse_number_to_string z c rest :
  is_digit c = false -> continues_number (String c rest) = false ->
  parse_number (number_to_string z ++ String c rest) = Some (z, String c rest).
Proof.
  intros Hc Hk. unfold number_to_string, parse_number.
  destruct z as [|p|p]; cbn [Z.to_int NilZero.string_of_int].
  - cbn. rewrite Hc. cbn in Hk. cbn. rewrite Hk. reflexivity.
  - rewrite string_of_uint_pos.
    pose proof (string_of_uint_head (Pos.to_uint p)) as Hh.
    destruct (NilEmpty.string_of_uint (Pos.to_uint p)) as [|d ds] eqn:E.
    + exfalso. exact (DecimalPos.Unsigned.to_uint_nonnil p Hh).
    + cbn [append].
      assert (Hd : (N_of_ascii d =? 45)%N = false).
      { destruct (Pos.to_uint p); cbn in E; try discriminate;
          injection E as <- _; reflexivity. }
      rewrite Hd. rewrite <- append_String, <- E.
      rewrite span_digits_uint by exact Hc. rewrite Hk.
      rewrite parse_digits_pos. reflexivity.
  - rewrite string_of_uint_pos. cbn [append].
    change (N_of_ascii "-" =? 45)%N with true. cbn iota.
    rewrite span_digits_uint by exact Hc. rewrite Hk.
    rewrite parse_digits_pos. reflexivity.
Qed.

Lemma parse_value_quote s rest :
  parse_value (quote s ++ rest) = Some (JString s, rest).
Proof.
  unfold quote. cbn [append parse_value].
  change (N_of_ascii dquote =? 34)%N with true. cbn iota.
  rewrite append_assoc3. cbn [append].
  rewrite parse_string_body_escape. reflexivity.
Qed.

Lemma skip_ws_quote s rest : skip_ws (quote s ++ rest) = quote s ++ rest.
Proof. reflexivity. Qed.

Lemma skip_ws_number z rest :
  skip_ws (number_to_string z ++ rest) = number_to_string z ++ rest.
Proof.
  unfold number_to_string.
  destruct z as [|p|p]; cbn [Z.to_int NilZero.string_of_int]; try reflexivity.
  destruct (Pos.to_uint p); reflexivity.
Qed.

Lemma parse_value_number z c rest :
  is_digit c = false -> continues_number (String c rest) = false ->
  parse_value (number_to_string z ++ String c rest) = Some (JNumber z, String c rest).
Proof.
  intros Hc Hk. pose proof (parse_number_to_string z c rest Hc Hk) as Hp.
  unfold parse_value.
  destruct (number_to_string z ++ String c rest) as [|d ds] eqn:E.
  - unfold parse_number in Hp. cbn in Hp. discriminate.
  - assert (Hd : (N_of_ascii d =? 34)%N = false).
    { unfold number_to_string in E.
      destruct z as [|p|p]; cbn [Z.to_int NilZero.string_of_int append] in E;
        try (injection E as <- _; reflexivity).
      destruct (Pos.to_uint p); cbn in E; injection E as <- _; reflexivity. }
    rewrite Hd, Hp. reflexivity.
Qed.

Lemma parse_member_quote k body v c rest :
  skip_ws body = body ->
  parse_value body = Some (v, String c rest) ->
  is_ws c = false ->
  parse_member (quote k ++ String ":" body) = Some ((k, v), String c rest).
Proof.
  intros Hb Hv Hc. unfold parse_member, quote.
  cbn [append skip_ws]. change (is_ws dquote) with false. cbn iota.
  change (N_of_ascii dquote =? 34)%N with true. cbn iota.
  rewrite append_assoc3. cbn [append]. rewrite parse_string_body_escape.
  cbn [skip_ws]. change (is_ws ":") with false. cbn iota.
  change (N_of_ascii ":" =? 58)%N with true. cbn iota.
  rewrite Hb, Hv. cbn [skip_ws]. rewrite Hc. reflexivity.
Qed.

(** The text of a token after its opening brace, bracketed to the right. *)
Lemma JSON_stringify_body t :
  exists body,
    JSON_stringify t = String "{" (String dquote body) /\
    String dquote body =
      (quote "accessToken" ++ String ":" (quote (AuthToken.accessToken t) ++ String ","
      (quote "refreshToken" ++ String ":" (quote (AuthToken.refreshToken t) ++ String ","
      (quote "expiresAt" ++ String ":" (number_to_string (AuthToken.expiresAt t) ++ String ","
      (quote "userId" ++ String ":" (quote (AuthToken.userId t) ++ String "}" EmptyString)))))))).
Proof.
  eexists. split.
  - unfold JSON_stringify. repeat rewrite append_assoc3.
    unfold quote at 1. cbn [append]. reflexivity.
  - unfold quote at 1. cbn [append]. reflexivity.
Qed.

Lemma parse_members_token fuel t :
  (4 <= fuel)%nat ->
  parse_members fuel
      (quote "accessToken" ++ String ":" (quote (AuthToken.accessToken t) ++ String ","
      (quote "refreshToken" ++ String ":" (quote (AuthToken.refreshToken t) ++ String ","
      (quote "expiresAt" ++ String ":" (number_to_string (AuthToken.expiresAt t) ++ String ","
      (quote "userId" ++ String ":" (quote (AuthToken.userId t) ++ String "}" EmptyString))))))))
  = Some ([("accessToken", JString (AuthToken.accessToken t));
           ("refreshToken", JString (AuthToken.refreshToken t));
           ("expiresAt", JNumber (AuthToken.expiresAt t));
           ("userId", JString (AuthToken.userId t))], EmptyString).
Proof.
  intro Hf. do 4 (destruct fuel as [|fuel]; [lia|]). clear Hf.
  cbn [parse_members].
  rewrite (parse_member_quote _ _ (JString (AuthToken.accessToken t)) "," _
             (skip_ws_quote _ _) (parse_value_quote _ _) eq_refl).
  change (N_of_ascii "," =? 125)%N with false.
  change (N_of_ascii "," =? 44)%N with true. cbn iota.
  rewrite (parse_member_quote _ _ (JString (AuthToken.refreshToken t)) "," _
             (skip_ws_quote _ _) (parse_value_quote _ _) eq_refl).
  change (N_of_ascii "," =? 125)%N with false.
  change (N_of_ascii "," =? 44)%N with true. cbn iota.
  rewrite (parse_member_quote _ _ (JNumber (AuthToken.expiresAt t)) "," _
             (skip_ws_number _ _) (parse_value_number _ "," _ eq_refl eq_refl) eq_refl).
  change (N_of_ascii "," =? 125)%N with false.
  change (N_of_ascii "," =? 44)%N with true. cbn iota.
  rewrite (parse_member_quote _ _ (JString (AuthToken.userId t)) "}" _
             (skip_ws_quote _ _) (parse_value_quote _ _) eq_refl).
  change (N_of_ascii "}" =? 125)%N with true. cbn iota.
  reflexivity.
Qed.

(** [JSON.parse(JSON.stringify(token))] is [token]. *)
Lemma JSON_parse_stringify t : JSON_parse (JSON_stringify t) = Some t.
Proof.
  destruct (JSON_stringify_body t) as (body & Hs & Hb).
  unfold JSON_parse, parse_object. rewrite Hs.
  cbn [skip_ws]. change (is_ws "{") with false. cbn iota.
  change (N_of_ascii "{" =? 123)%N with true. cbn iota.
  change (is_ws dquote) with false. cbn iota.
  change (N_of_ascii dquote =? 125)%N with false. cbn iota.
  rewrite Hb, parse_members_token.
  - cbn [skip_ws]. destruct t; reflexivity.
  - rewrite <- Hb. cbn [String.length].
    destruct body as [|a [|b r]]; cbn [String.length]; try lia;
      unfold quote in Hb; cbn in Hb; discriminate.
Qed.

(** A serialized token is a non-empty string, hence truthy. *)
Lemma truthy_stringify t : truthy (Some (JSON_stringify t)) = true.
Proof.
  destruct (JSON_stringify_body t) as (body & Hs & _). rewrite Hs. reflexivity.
Qed.

End JsonRoundTrip.

(** ** The credential store *)

Section CredentialStore.

Import AuthManager.

Ltac open_manager s :=
  destruct s as [cur [kv kr kw kd] [sv sr sw sd] cs].

Ltac run_store :=
  unfold storeToken, loadToken, clearToken, try_catch, bind, ret, throw,
    keytar_setPassword, keytar_getPassword, keytar_deletePassword,
    secrets_store, secrets_get, secrets_delete, record, with_keytar,
    with_secrets, put, cleared, AuthManager.JSON_parse;
  cbn [currentToken keytar secrets calls stored read_fault write_fault delete_fault].

(** [storeToken] by cases on which writes fail. *)
Lemma storeToken_eq token s :
  storeToken token s =
  let v := Json.JSON_stringify token in
  match write_fault (keytar s), write_fault (secrets s) with
  | None, _ =>
      (Ok tt, mkManager (currentToken s) (put (Some v) (keytar s)) (secrets s)
                        (calls s ++ [KeytarSetPassword v]))
  | Some _, None =>
      (Ok tt, mkManager (currentToken s) (keytar s) (put (Some v) (secrets s))
                        (calls s ++ [KeytarSetPassword v; SecretsStore v]))
  | Some _, Some text =>
      (Throw (PlatformError text),
       mkManager (currentToken s) (keytar s) (secrets s)
                 (calls s ++ [KeytarSetPassword v; SecretsStore v]))
  end.
Proof.
  open_manager s. run_store.
  destruct kw, sw; cbn; rewrite <- ?app_assoc; reflexivity.
Qed.

(** [loadToken] by cases on what the reads give. *)
Lemma loadToken_eq s :
  loadToken s =
  match read_fault (keytar s) with
  | Some _ =>
      (Ok None, mkManager (currentToken s) (keytar s) (secrets s)
                          (calls s ++ [KeytarGetPassword]))
  | None =>
      if truthy (stored (keytar s)) then
        (Ok (Json.JSON_parse (text_of (stored (keytar s)))),
         mkManager (currentToken s) (keytar s) (secrets s)
                   (calls s ++ [KeytarGetPassword]))
      else
        match read_fault (secrets s) with
        | Some _ =>
            (Ok None, mkManager (currentToken s) (keytar s) (secrets s)
                                (calls s ++ [KeytarGetPassword; SecretsGet]))
        | None =>
            (Ok (if truthy (stored (secrets s))
                 then Json.JSON_parse (text_of (stored (secrets s)))
                 else None),
             mkManager (currentToken s) (keytar s) (secrets s)
                       (calls s ++ [KeytarGetPassword; SecretsGet]))
        end
  end.
Proof.
  open_manager s. run_store.
  destruct kr; cbn; [reflexivity|].
  destruct (truthy kv) eqn:Ek; cbn.
  - destruct (Json.JSON_parse (text_of kv)); reflexivity.
  - destruct sr; cbn; rewrite <- ?app_assoc; cbn; [reflexivity|].
    destruct (truthy sv); cbn; [|reflexivity].
    destruct (Json.JSON_parse (text_of sv)); reflexivity.
Qed.

(** [clearToken] never throws and calls both deletions, in this order. *)
Lemma clearToken_eq s :
  clearToken s =
  (Ok tt, mkManager (currentToken s) (cleared (keytar s)) (cleared (secrets s))
                    (calls s ++ [KeytarDeletePassword; SecretsDelete])).
Proof.
  open_manager s. run_store.
  destruct kd, sd; cbn; rewrite <- ?app_assoc; reflexivity.
Qed.

(** [loadToken] returns, and changes nothing but the record of calls. *)
Lemma loadToken_total s :
  exists v cs,
    loadToken s = (Ok v, mkManager (currentToken s) (keytar s) (secrets s) (calls s ++ cs)).
Proof.
  rewrite loadToken_eq.
  destruct (read_fault (keytar s)); [eauto|].
  destruct (truthy (stored (keytar s))); [eauto|].
  destruct (read_fault (secrets s)); eauto.
Qed.

Lemma stored_cleared b :
  delete_fault b = None -> stored (cleared b) = None.
Proof. intro H. unfold cleared. rewrite H. reflexivity. Qed.

(** What [loadToken] finds after [storeToken] wrote to keytar. *)
Lemma load_after_primary_write token s s' :
  write_fault (keytar s) = None ->
  storeToken token s = (Ok tt, s') ->
  read_fault (keytar s') = None ->
  fst (loadToken s') = Ok (Some token).
Proof.
  intros Hw Hs Hr. rewrite storeToken_eq, Hw in Hs. cbn zeta in Hs.
  injection Hs as <-. rewrite loadToken_eq.
  cbn [keytar put read_fault stored] in *. rewrite Hr.
  rewrite truthy_stringify. cbn [fst text_of].
  rewrite JSON_parse_stringify. reflexivity.
Qed.

(** What [loadToken] finds after [storeToken] fell back to the secret
    storage, when keytar can be read and holds nothing. *)
Lemma load_after_fallback_write token s s' text :
  write_fault (keytar s) = Some text ->
  storeToken token s = (Ok tt, s') ->
  read_fault (keytar s) = None ->
  truthy (stored (keytar s)) = false ->
  read_fault (secrets s) = None ->
  fst (loadToken s') = Ok (Some token).
Proof.
  intros Hw Hs Hr Hk Hrs. rewrite storeToken_eq, Hw in Hs. cbn zeta in Hs.
  destruct (write_fault (secrets s)) eqn:Hws; [discriminate|].
  injection Hs as <-. rewrite loadToken_eq.
  cbn [keytar secrets put read_fault stored]. rewrite Hr, Hk, Hrs.
  rewrite truthy_stringify. cbn [fst text_of].
  rewrite JSON_parse_stringify. reflexivity.
Qed.

End CredentialStore.

(** ** Claims on the credential store *)

Local Open Scope list_scope.

(** C5 (read order, code defect). When the read of keytar throws, [loadToken]
    answers "not found" after the single keytar call: the secret storage,
    which here holds a well-formed token, is never consulted. *)
Theorem loadToken_primary_failure_skips_fallback :
  let s := mkManager None (Scenario.unavailable None)
                     (Scenario.holding (Json.JSON_stringify Scenario.token1)) [] in
  Json.JSON_parse (AuthManager.text_of (stored (secrets s))) = Some Scenario.token1 /\
  AuthManager.loadToken s
  = (Ok None, mkManager None (keytar s) (secrets s) [KeytarGetPassword]).
Proof. vm_compute. split; reflexivity. Qed.

(** C7 as the code has it: [storeToken] calls keytar first; it calls the
    secret storage only when the keytar write threw, and then keytar is left
    as it was, so one write never lands in both backends; a token that went
    to the secret storage is what the next [loadToken] returns when keytar
    can be read and holds no value and the secret storage can be read. *)
Theorem storeToken_primary_else_fallback (token : AuthToken) (s : Manager) :
  let v := Json.JSON_stringify token in
  let r := AuthManager.storeToken token s in
  (exists rest, calls (snd r) = calls s ++ KeytarSetPassword v :: rest) /\
  (write_fault (keytar s) = None ->
     fst r = Ok tt /\ calls (snd r) = calls s ++ [KeytarSetPassword v] /\
     stored (keytar (snd r)) = Some v /\ secrets (snd r) = secrets s) /\
  (forall text, write_fault (keytar s) = Some text ->
     calls (snd r) = calls s ++ [KeytarSetPassword v; SecretsStore v] /\
     keytar (snd r) = keytar s /\
     (write_fault (secrets s) = None ->
        fst r = Ok tt /\ stored (secrets (snd r)) = Some v)) /\
  (keytar (snd r) = keytar s \/ secrets (snd r) = secrets s) /\
  (forall text, write_fault (keytar s) = Some text ->
     write_fault (secrets s) = None ->
     read_fault (keytar s) = None ->
     truthy (stored (keytar s)) = false ->
     read_fault (secrets s) = None ->
     fst (AuthManager.loadToken (snd r)) = Ok (Some token)).
Proof.
  intros v r. subst r.
  pose proof (storeToken_eq token s) as E. cbn zeta in E. fold v in E.
  repeat split.
  - rewrite E. destruct (write_fault (keytar s)), (write_fault (secrets s));
      cbn [snd calls]; eauto.
  - rewrite E, H. reflexivity.
  - rewrite E, H. reflexivity.
  - rewrite E, H. reflexivity.
  - rewrite E, H. reflexivity.
  - rewrite E, H. destruct (write_fault (secrets s)); reflexivity.
  - rewrite E, H. destruct (write_fault (secrets s)); reflexivity.
  - rewrite E, H, H0. reflexivity.
  - rewrite E, H, H0. reflexivity.
  - rewrite E. destruct (write_fault (keytar s)), (write_fault (secrets s));
      cbn [snd keytar secrets]; auto.
  - intros text Hw Hws Hr Hk Hrs.
    apply (load_after_fallback_write token s _ text Hw); try assumption.
    rewrite E, Hw, Hws. reflexivity.
Qed.

Lemma storeToken_primary_else_fallback_witness :
  fst (AuthManager.loadToken
         (snd (AuthManager.storeToken Scenario.token1
                 (mkManager None Scenario.readonly_keytar Scenario.healthy []))))
  = Ok (Some Scenario.token1).
Proof.
  apply (proj2 (proj2 (proj2 (proj2
           (storeToken_primary_else_fallback Scenario.token1
              (mkManager None Scenario.readonly_keytar Scenario.healthy [])))))
         "Error: locked"); reflexivity.
Defined.

(** C7 as stated fails: keytar refuses the write while it still holds an
    earlier token; the new token goes to the secret storage only, and the
    next read returns the earlier token from keytar, not the one written. *)
Lemma storeToken_fallback_shadowed_by_primary :
  let s := mkManager None Scenario.stale_keytar Scenario.healthy [] in
  let r := AuthManager.storeToken Scenario.token2 s in
  fst r = Ok tt /\
  stored (secrets (snd r)) = Some (Json.JSON_stringify Scenario.token2) /\
  stored (keytar (snd r)) = Some (Json.JSON_stringify Scenario.token1) /\
  fst (AuthManager.loadToken (snd r)) = Ok (Some Scenario.token1) /\
  fst (AuthManager.loadToken (snd r)) <> Ok (Some Scenario.token2).
Proof. vm_compute. repeat split; discriminate. Qed.

(** C8: [logout] always returns normally, whatever the revoke request and
    the two deletions do; it has called the deletion of keytar and then the
    deletion of the secret storage, each backend whose deletion did not fail
    is empty, and the cache is empty. *)
Theorem logout_attempts_both_deletions (srv : Server) (s : Manager) :
  exists s',
    AuthManager.logout srv s = (Ok tt, s') /\
    calls s' = calls s ++ [KeytarDeletePassword; SecretsDelete] /\
    keytar s' = cleared (keytar s) /\
    secrets s' = cleared (secrets s) /\
    currentToken s' = None.
Proof.
  unfold AuthManager.logout, bind, try_catch, AuthManager.get_currentToken,
    lift, ret, AuthManager.set_currentToken.
  destruct (currentToken s) as [tok|].
  - unfold AuthManager.revokeToken.
    destruct (revoke srv (AuthToken.accessToken tok));
      rewrite clearToken_eq; eexists; repeat split.
  - rewrite clearToken_eq. eexists; repeat split.
Qed.

(** C10 as the code has it: for a token whose [expiresAt] is a safe integer
    (so that it is written in plain digits), after [storeToken token]
    returned normally, the next [loadToken] returns [token], field for field,
    when the read of keytar does not fail and either the token went to keytar
    or keytar holds no value and the read of the secret storage does not
    fail; and [JSON.parse] after [JSON.stringify] is the identity on such
    tokens. *)
Theorem store_then_load_round_trip (token : AuthToken) (s s' : Manager) :
  safe_integer (AuthToken.expiresAt token) ->
  AuthManager.storeToken token s = (Ok tt, s') ->
  read_fault (keytar s) = None ->
  write_fault (keytar s) = None \/
    (truthy (stored (keytar s)) = false /\ read_fault (secrets s) = None) ->
  Json.JSON_parse (Json.JSON_stringify token) = Some token /\
  exists t',
    fst (AuthManager.loadToken s') = Ok (Some t') /\
    AuthToken.accessToken t' = AuthToken.accessToken token /\
    AuthToken.refreshToken t' = AuthToken.refreshToken token /\
    AuthToken.expiresAt t' = AuthToken.expiresAt token /\
    AuthToken.userId t' = AuthToken.userId token.
Proof.
  intros _ Hs Hr Hcase. split; [apply JSON_parse_stringify|].
  exists token. repeat split.
  destruct (write_fault (keytar s)) as [text|] eqn:Hw.
  - destruct Hcase as [Hc|[Hk Hrs]]; [discriminate|].
    exact (load_after_fallback_write token s s' text Hw Hs Hr Hk Hrs).
  - apply (load_after_primary_write token s s' Hw Hs).
    rewrite storeToken_eq, Hw in Hs. injection Hs as <-. exact Hr.
Qed.

Lemma store_then_load_round_trip_witness :
  exists t',
    fst (AuthManager.loadToken
           (snd (AuthManager.storeToken Scenario.token1
                   (mkManager None Scenario.healthy Scenario.healthy []))))
    = Ok (Some t') /\
    AuthToken.accessToken t' = "AT1" /\
    AuthToken.refreshToken t' = "RT1" /\
    AuthToken.expiresAt t' = 3600000 /\
    AuthToken.userId t' = "u1".
Proof.
  refine (proj2 (store_then_load_round_trip Scenario.token1
                   (mkManager None Scenario.healthy Scenario.healthy []) _
                   _ eq_refl eq_refl _)).
  - unfold safe_integer. cbn. lia.
  - left. reflexivity.
Defined.

(** C10 as stated fails: [storeToken] succeeds on the secret storage because
    keytar refuses the write, nothing is cleared or overwritten, and the next
    [loadToken] returns the earlier token that keytar still holds. *)
Lemma store_then_load_returns_other_token :
  let s := mkManager None Scenario.stale_keytar Scenario.healthy [] in
  exists s' t',
    AuthManager.storeToken Scenario.token2 s = (Ok tt, s') /\
    fst (AuthManager.loadToken s') = Ok (Some t') /\
    AuthToken.accessToken t' <> AuthToken.accessToken Scenario.token2 /\
    AuthToken.expiresAt t' <> AuthToken.expiresAt Scenario.token2.
Proof.
  cbn zeta. eexists. exists Scenario.token1.
  split; [vm_compute; reflexivity|].
  split; [vm_compute; reflexivity|].
  split; vm_compute; discriminate.
Qed.

(** ** The token lifecycle *)

Section TokenLifecycle.

Import AuthManager.

Variable srv : Server.
Variables now now_refresh : Z.

Ltac run_lifecycle :=
  unfold getValidToken, bind, try_catch, get_currentToken, set_currentToken,
    lift, ret;
  cbn [currentToken keytar secrets calls].

(** [getValidToken] on an empty cache continues as on the cache filled by
    [loadToken]. *)
Lemma getValidToken_reload s tok :
  token_in_use s = Some tok ->
  exists cs,
    getValidToken srv now now_refresh s
    = getValidToken srv now now_refresh
        (mkManager (Some tok) (keytar s) (secrets s) (calls s ++ cs)).
Proof.
  unfold token_in_use. destruct (currentToken s) as [cur|] eqn:Hcur.
  - intros [= ->]. exists []. rewrite List.app_nil_r.
    destruct s; cbn in Hcur; subst; reflexivity.
  - destruct (loadToken_total s) as (v & cs & E). rewrite E. cbn [fst].
    intros ->. exists cs. run_lifecycle. rewrite Hcur, E. reflexivity.
Qed.

Lemma expired_test tok :
  AuthToken.expiresAt tok <= now -> (now >=? AuthToken.expiresAt tok) = true.
Proof. intro H. apply Z.geb_le. exact H. Qed.

(** The expired cached token and a refresh that throws: implicit logout. *)
Lemma getValidToken_cached_refresh_fails s tok e :
  currentToken s = Some tok ->
  AuthToken.expiresAt tok <= now ->
  refreshToken srv now_refresh (AuthToken.refreshToken tok) = Throw e ->
  getValidToken srv now now_refresh s
  = (Ok None, mkManager None (cleared (keytar s)) (cleared (secrets s))
                        (calls s ++ [KeytarDeletePassword; SecretsDelete])).
Proof.
  intros Hcur Hexp Href. run_lifecycle. rewrite Hcur. cbn beta iota.
  rewrite Hcur. cbn beta iota.
  rewrite (expired_test tok Hexp), Href, clearToken_eq. reflexivity.
Qed.

(** The expired cached token and a refresh that succeeds: the new token is
    cached, then handed to [storeToken]. *)
Lemma getValidToken_cached_refresh_ok s tok fresh :
  currentToken s = Some tok ->
  AuthToken.expiresAt tok <= now ->
  refreshToken srv now_refresh (AuthToken.refreshToken tok) = Ok fresh ->
  forall s2,
    storeToken fresh (mkManager (Some fresh) (keytar s) (secrets s) (calls s))
    = (Ok tt, s2) ->
    currentToken s2 = Some fresh ->
    getValidToken srv now now_refresh s
    = (Ok (Some (AuthToken.accessToken fresh)), s2).
Proof.
  intros Hcur Hexp Href s2 Hst Hc2. run_lifecycle. rewrite Hcur. cbn beta iota.
  rewrite Hcur. cbn beta iota.
  rewrite (expired_test tok Hexp), Href, Hst. cbn. rewrite Hc2. reflexivity.
Qed.

Lemma refreshToken_ok rt d :
  token_by_refresh srv rt = OkJson d ->
  refreshToken srv now_refresh rt
  = Ok (AuthToken.mk (access_token d) (js_or (refresh_token d) rt)
                     (now_refresh + expires_in d * 1000) (user_id d)).
Proof. intro H. unfold refreshToken. rewrite H. reflexivity. Qed.

End TokenLifecycle.

(** ** Claims on the token lifecycle *)

(** C3 as the code has it: when the token in use is expired and the refresh
    throws, [getValidToken] returns [null] without throwing, the cache is
    empty so that [isAuthenticated] is false, both deletions have been
    called, and the credential is gone from each backend whose deletion did
    not fail. *)
Theorem getValidToken_refresh_failure
  (srv : Server) (now now_refresh : Z) (s : Manager) (tok : AuthToken)
  (e : AuthError) :
  token_in_use s = Some tok ->
  AuthToken.expiresAt tok <= now ->
  AuthManager.refreshToken srv now_refresh (AuthToken.refreshToken tok) = Throw e ->
  exists s',
    AuthManager.getValidToken srv now now_refresh s = (Ok None, s') /\
    AuthManager.isAuthenticated s' = false /\
    (exists before, calls s' = before ++ [KeytarDeletePassword; SecretsDelete]) /\
    (delete_fault (keytar s) = None -> stored (keytar s') = None) /\
    (delete_fault (secrets s) = None -> stored (secrets s') = None).
Proof.
  intros Huse Hexp Href.
  destruct (getValidToken_reload srv now now_refresh s tok Huse) as [cs E].
  rewrite E.
  rewrite (getValidToken_cached_refresh_fails srv now now_refresh
             (mkManager (Some tok) (keytar s) (secrets s) (calls s ++ cs))
             tok e eq_refl Hexp Href).
  eexists. split; [reflexivity|]. cbn [currentToken keytar secrets calls].
  repeat split.
  - eexists. reflexivity.
  - apply stored_cleared.
  - apply stored_cleared.
Qed.

Lemma getValidToken_refresh_failure_witness :
  let srv := Scenario.server (NotOk "Unauthorized") (NotOk "Unauthorized") in
  let s := mkManager (Some Scenario.expired_token)
                     (Scenario.holding (Json.JSON_stringify Scenario.expired_token))
                     Scenario.healthy [] in
  exists s',
    AuthManager.getValidToken srv 5000 5000 s = (Ok None, s') /\
    AuthManager.isAuthenticated s' = false /\
    stored (keytar s') = None /\
    stored (secrets s') = None.
Proof.
  intros srv s.
  destruct (getValidToken_refresh_failure srv 5000 5000 s
              Scenario.expired_token (RefreshFailed "Unauthorized"))
    as (s' & E & A & _ & K & S).
  - reflexivity.
  - cbn. lia.
  - reflexivity.
  - exists s'. repeat split; [exact E | exact A | apply K | apply S]; reflexivity.
Defined.

(** C3 as stated fails: the refresh fails while keytar refuses the deletion;
    [getValidToken] returns [null] and empties the cache, but the credential
    is still in keytar. *)
Lemma getValidToken_refresh_failure_keeps_credential :
  let s := mkManager (Some Scenario.expired_token) Scenario.undeletable_keytar
                     Scenario.healthy [] in
  let r := AuthManager.getValidToken
             (Scenario.server (NotOk "Unauthorized") (NotOk "Unauthorized"))
             5000 5000 s in
  fst r = Ok None /\
  AuthManager.isAuthenticated (snd r) = false /\
  calls (snd r) = [KeytarDeletePassword; SecretsDelete] /\
  stored (keytar (snd r)) = Some (Json.JSON_stringify Scenario.expired_token) /\
  stored (keytar (snd r)) <> None.
Proof. vm_compute. repeat split. discriminate. Qed.

(** C6 as the code has it: after a successful refresh of the expired token
    in use, the token that is cached and written carries the new access
    token and the new expiry; its refresh token is the previous one when the
    response has no [refresh_token] field or an empty one, and the server's
    when the response carries a non-empty one. *)
Theorem getValidToken_refresh_token_carried
  (srv : Server) (now now_refresh : Z) (s : Manager) (tok : AuthToken)
  (d : RefreshData) :
  token_in_use s = Some tok ->
  AuthToken.expiresAt tok <= now ->
  token_by_refresh srv (AuthToken.refreshToken tok) = OkJson d ->
  let fresh :=
    AuthToken.mk (access_token d)
                 (js_or (refresh_token d) (AuthToken.refreshToken tok))
                 (now_refresh + expires_in d * 1000) (user_id d) in
  (refresh_token d = None ->
     AuthToken.refreshToken fresh = AuthToken.refreshToken tok) /\
  (refresh_token d = Some EmptyString ->
     AuthToken.refreshToken fresh = AuthToken.refreshToken tok) /\
  (forall r, refresh_token d = Some r -> r <> EmptyString ->
     AuthToken.refreshToken fresh = r) /\
  (write_fault (keytar s) = None ->
     exists s',
       AuthManager.getValidToken srv now now_refresh s
       = (Ok (Some (access_token d)), s') /\
       currentToken s' = Some fresh /\
       stored (keytar s') = Some (Json.JSON_stringify fresh)) /\
  (forall text, write_fault (keytar s) = Some text ->
     write_fault (secrets s) = None ->
     exists s',
       AuthManager.getValidToken srv now now_refresh s
       = (Ok (Some (access_token d)), s') /\
       currentToken s' = Some fresh /\
       stored (secrets s') = Some (Json.JSON_stringify fresh)).
Proof.
  intros Huse Hexp Hd fresh.
  destruct (getValidToken_reload srv now now_refresh s tok Huse) as [cs E].
  pose proof (refreshToken_ok srv now_refresh _ d Hd) as Href. fold fresh in Href.
  split; [|split; [|split; [|split]]].
  - intro Hn. subst fresh. cbn. rewrite Hn. reflexivity.
  - intro Hn. subst fresh. cbn. rewrite Hn. reflexivity.
  - intros r Hr Hne. subst fresh. cbn. rewrite Hr. cbn.
    destruct (String.eqb_spec r EmptyString); [contradiction | reflexivity].
  - intro Hw. eexists. rewrite E. split; [|split].
    + apply (getValidToken_cached_refresh_ok srv now now_refresh
               (mkManager (Some tok) (keytar s) (secrets s) (calls s ++ cs))
               tok fresh eq_refl Hexp Href).
      * rewrite storeToken_eq. cbn [keytar secrets calls currentToken].
        rewrite Hw. reflexivity.
      * reflexivity.
    + reflexivity.
    + reflexivity.
  - intros text Hw Hws. eexists. rewrite E. split; [|split].
    + apply (getValidToken_cached_refresh_ok srv now now_refresh
               (mkManager (Some tok) (keytar s) (secrets s) (calls s ++ cs))
               tok fresh eq_refl Hexp Href).
      * rewrite storeToken_eq. cbn [keytar secrets calls currentToken].
        rewrite Hw, Hws. reflexivity.
      * reflexivity.
    + reflexivity.
    + reflexivity.
Qed.

Lemma getValidToken_refresh_token_carried_witness :
  let srv := Scenario.server (NotOk "unused")
               (OkJson (mkRefreshData "AT2" None 60 "u1")) in
  let s := mkManager (Some Scenario.expired_token) Scenario.healthy
                     Scenario.healthy [] in
  exists s',
    AuthManager.getValidToken srv 5000 5000 s = (Ok (Some "AT2"), s') /\
    currentToken s' = Some (AuthToken.mk "AT2" "RT1" 65000 "u1") /\
    stored (keytar s')
    = Some (Json.JSON_stringify (AuthToken.mk "AT2" "RT1" 65000 "u1")).
Proof.
  intros srv s.
  refine (proj1 (proj2 (proj2 (proj2
            (getValidToken_refresh_token_carried srv 5000 5000 s
               Scenario.expired_token (mkRefreshData "AT2" None 60 "u1")
               _ _ _)))) _).
  - reflexivity.
  - cbn. lia.
  - reflexivity.
  - reflexivity.
Defined.

(** C6 as stated fails: the refresh response does carry a [refresh_token]
    field, an empty one; the token that is cached and written keeps the
    previous refresh token instead of the server's value. *)
Lemma getValidToken_empty_refresh_token_not_used :
  let d := mkRefreshData "AT2" (Some EmptyString) 60 "u1" in
  let s := mkManager (Some Scenario.expired_token) Scenario.healthy
                     Scenario.healthy [] in
  let r := AuthManager.getValidToken
             (Scenario.server (NotOk "unused") (OkJson d)) 5000 5000 s in
  refresh_token d = Some EmptyString /\
  fst r = Ok (Some "AT2") /\
  currentToken (snd r) = Some (AuthToken.mk "AT2" "RT1" 65000 "u1") /\
  stored (keytar (snd r))
  = Some (Json.JSON_stringify (AuthToken.mk "AT2" "RT1" 65000 "u1")) /\
  option_map AuthToken.refreshToken (currentToken (snd r)) <> refresh_token d.
Proof. vm_compute. repeat split. discriminate. Qed.




(** ** The login rendezvous *)

Section Rendezvous.

Import AuthManager.

Variable srv : Server.
Variable sessionId : string.

Ltac open_waiting w := destruct w as [p timer handler exch].

(** A settled promise is not changed by any signal. *)
Lemma settled_signal w sg :
  promise w <> Pending -> promise (signal srv sessionId w sg) = promise w.
Proof.
  intro Hp. open_waiting w. cbn in Hp.
  destruct sg as [|q| |t]; cbn.
  - destruct timer; [|reflexivity]. destruct p; [contradiction| |]; reflexivity.
  - destruct handler; [|reflexivity]. unfold handleUri.
    destruct (truthy (query_get "error" q)); [destruct p; try contradiction; reflexivity|].
    destruct (state_differs (query_get "state" q) sessionId);
      [destruct p; try contradiction; reflexivity|].
    destruct (negb (truthy (query_get "code" q)));
      destruct p; try contradiction; reflexivity.
  - destruct p; [contradiction| |]; reflexivity.
  - destruct exch as [code|]; [|reflexivity]. unfold onExchange.
    destruct (exchangeCodeForToken srv t code);
      destruct p; try contradiction; reflexivity.
Qed.

Lemma settled_signals sgs : forall w,
  promise w <> Pending -> promise (signals srv sessionId sgs w) = promise w.
Proof.
  induction sgs as [|sg sgs IH]; intros w Hp; [reflexivity|].
  unfold signals in *. cbn [fold_left].
  rewrite IH; rewrite settled_signal; auto.
Qed.

Lemma exchange_outcome now code :
  match exchangeCodeForToken srv now code with
  | Ok _ => True
  | Throw e => outcome_of (Rejected e) = Some OExchangeFailed
  | Hang => False
  end.
Proof.
  unfold exchangeCodeForToken. destruct (token_by_code srv code); cbn; auto.
Qed.

(** Every signal keeps the state coherent. *)
Lemma coherent_signal w sg :
  coherent w -> coherent (signal srv sessionId w sg).
Proof.
  open_waiting w. unfold coherent. cbn [promise timer_armed handler_registered exchanging].
  intro Hc. destruct sg as [|q| |t]; cbn [signal timer_armed handler_registered exchanging].
  - destruct timer; [|exact Hc].
    destruct p; cbn; [|destruct Hc as (? & ? & ?); discriminate ..].
    repeat split; discriminate.
  - destruct handler; [|exact Hc].
    destruct p; [|destruct Hc as (? & ? & ?); discriminate ..].
    unfold handleUri.
    destruct (truthy (query_get "error" q)); [cbn; repeat split; discriminate|].
    destruct (state_differs (query_get "state" q) sessionId);
      [cbn; repeat split; discriminate|].
    destruct (negb (truthy (query_get "code" q)));
      [cbn; repeat split; discriminate|].
    cbn. right. repeat split; discriminate.
  - destruct p; cbn.
    + repeat split; discriminate.
    + destruct Hc as (_ & _ & Ho). repeat split; exact Ho.
    + destruct Hc as (_ & _ & Ho). repeat split; exact Ho.
  - destruct exch as [code|]; [|exact Hc]. unfold onExchange.
    pose proof (exchange_outcome t code) as Hx.
    destruct (exchangeCodeForToken srv t code) as [tok|e|]; [| |contradiction].
    + destruct p; cbn.
      * destruct Hc as [(_ & _ & Hn)|(Ht & Hh & _)]; [discriminate|].
        cbn in *. repeat split; try assumption. discriminate.
      * exact Hc.
      * exact Hc.
    + destruct p; cbn.
      * destruct Hc as [(_ & _ & Hn)|(Ht & Hh & _)]; [discriminate|].
        cbn in *. repeat split; try assumption. rewrite Hx. discriminate.
      * exact Hc.
      * exact Hc.
Qed.

Lemma reachable_coherent w : reachable srv sessionId w -> coherent w.
Proof.
  induction 1 as [|w sg _ IH].
  - left. repeat split.
  - apply coherent_signal. exact IH.
Qed.

Lemma reachable_signals sgs : forall w,
  reachable srv sessionId w -> reachable srv sessionId (signals srv sessionId sgs w).
Proof.
  induction sgs as [|sg sgs IH]; intros w Hr; [exact Hr|].
  unfold signals in *. cbn [fold_left]. apply IH. constructor. exact Hr.
Qed.

(** On a settled reachable state the three signals change nothing at all. *)
Lemma settled_noop w :
  coherent w -> promise w <> Pending ->
  (forall q, signal srv sessionId w (UriDelivered q) = w) /\
  signal srv sessionId w CancellationRequested = w /\
  signal srv sessionId w TimerFires = w.
Proof.
  open_waiting w. unfold coherent. cbn. intros Hc Hp.
  destruct p; [contradiction| |]; destruct Hc as (-> & -> & _); repeat split.
Qed.

(** The state test of [handleUri], read back. *)
Lemma state_differs_false state :
  state_differs state sessionId = false -> state = Some sessionId.
Proof.
  destruct state as [st|]; cbn; [|discriminate].
  destruct (String.eqb_spec st sessionId); [intros _; congruence | discriminate].
Qed.

Lemma state_differs_true state :
  state <> Some sessionId -> state_differs state sessionId = true.
Proof.
  destruct state as [st|]; cbn; [|reflexivity].
  destruct (String.eqb_spec st sessionId); [congruence | reflexivity].
Qed.

(** A token comes only out of a redirect whose state is the session's. *)
Lemma completed_first_uri sgs t :
  promise (signals srv sessionId sgs registered) = Fulfilled (Some t) ->
  exists q, first_uri sgs = Some q /\ query_get "state" q = Some sessionId.
Proof.
  induction sgs as [|sg sgs IH]; [discriminate|].
  unfold signals in *. cbn [fold_left].
  destruct sg as [|q| |now].
  - change (fold_left (signal srv sessionId) sgs (signal srv sessionId registered TimerFires))
      with (signals srv sessionId sgs (signal srv sessionId registered TimerFires)).
    rewrite settled_signals by (cbn; discriminate). cbn. discriminate.
  - change (fold_left (signal srv sessionId) sgs (signal srv sessionId registered (UriDelivered q)))
      with (signals srv sessionId sgs (signal srv sessionId registered (UriDelivered q))).
    cbn [first_uri]. intro H. exists q. split; [reflexivity|].
    revert H. cbn [signal registered handler_registered]. unfold handleUri.
    destruct (truthy (query_get "error" q));
      [rewrite settled_signals by (cbn; discriminate); cbn; discriminate|].
    destruct (state_differs (query_get "state" q) sessionId) eqn:Est;
      [rewrite settled_signals by (cbn; discriminate); cbn; discriminate|].
    intros _. apply state_differs_false. exact Est.
  - change (fold_left (signal srv sessionId) sgs
              (signal srv sessionId registered CancellationRequested))
      with (signals srv sessionId sgs
              (signal srv sessionId registered CancellationRequested)).
    rewrite settled_signals by (cbn; discriminate). cbn. discriminate.
  - cbn [signal registered exchanging first_uri]. exact IH.
Qed.

End Rendezvous.

(** ** Claims on the login rendezvous *)

(** C2 as the code has it: the promise is fulfilled with a token only when
    the first redirect delivered carries the session's own state; a redirect
    that reaches the registered handler without a non-empty [error]
    parameter and with another state is rejected as an invalid state,
    whatever its code; a redirect with a non-empty [error] parameter is
    rejected as a provider error before the state is looked at. *)
Theorem handleUri_state_check (srv : Server) (sessionId : string) :
  (forall sgs t,
     AuthManager.waitForAuthCallback srv sessionId sgs = Ok (Some t) ->
     exists q, AuthManager.first_uri sgs = Some q /\
               query_get "state" q = Some sessionId) /\
  (forall w q,
     reachable srv sessionId w ->
     AuthManager.handler_registered w = true ->
     truthy (query_get "error" q) = false ->
     query_get "state" q <> Some sessionId ->
     AuthManager.promise (AuthManager.signal srv sessionId w (AuthManager.UriDelivered q))
     = AuthManager.Rejected InvalidState) /\
  (forall w q,
     reachable srv sessionId w ->
     AuthManager.handler_registered w = true ->
     truthy (query_get "error" q) = true ->
     AuthManager.promise (AuthManager.signal srv sessionId w (AuthManager.UriDelivered q))
     = AuthManager.Rejected
         (ProviderError (AuthManager.text_of (query_get "error" q)))).
Proof.
  split; [|split].
  - intros sgs t. unfold AuthManager.waitForAuthCallback.
    destruct (AuthManager.promise
                (AuthManager.signals srv sessionId sgs AuthManager.registered))
      as [|v|e] eqn:E; try discriminate.
    intros [= ->]. exact (completed_first_uri srv sessionId sgs t E).
  - intros w q Hr Hh He Hst.
    pose proof (reachable_coherent srv sessionId w Hr) as Hc.
    destruct w as [p timer handler exch]. cbn in Hh. subst handler.
    unfold coherent in Hc. cbn in Hc.
    destruct p; [|destruct Hc as (_ & Hd & _); discriminate ..].
    cbn. unfold AuthManager.handleUri.
    rewrite He, (state_differs_true sessionId _ Hst). reflexivity.
  - intros w q Hr Hh He.
    pose proof (reachable_coherent srv sessionId w Hr) as Hc.
    destruct w as [p timer handler exch]. cbn in Hh. subst handler.
    unfold coherent in Hc. cbn in Hc.
    destruct p; [|destruct Hc as (_ & Hd & _); discriminate ..].
    cbn. unfold AuthManager.handleUri. rewrite He. reflexivity.
Qed.

Lemma handleUri_state_check_witness :
  AuthManager.promise
    (AuthManager.signal (Scenario.server (OkJson Scenario.exchange1) (NotOk "unused"))
       Scenario.nonce AuthManager.registered
       (AuthManager.UriDelivered [("code", "CODE1"); ("state", "xyz")]))
  = AuthManager.Rejected InvalidState.
Proof.
  apply (proj1 (proj2 (handleUri_state_check
                         (Scenario.server (OkJson Scenario.exchange1) (NotOk "unused"))
                         Scenario.nonce))).
  - apply reach_registered.
  - reflexivity.
  - reflexivity.
  - cbn. discriminate.
Defined.

(** C2 as stated fails: the redirect carries another state than the nonce
    and a valid code, and also an [error] parameter; the attempt fails as a
    provider error, not as an invalid state. *)
Lemma handleUri_error_before_state :
  let q := [("code", "CODE1"); ("state", "xyz"); ("error", "access_denied")] in
  let w := AuthManager.signal
             (Scenario.server (OkJson Scenario.exchange1) (NotOk "unused"))
             Scenario.nonce AuthManager.registered (AuthManager.UriDelivered q) in
  query_get "state" q <> Some Scenario.nonce /\
  AuthManager.promise w = AuthManager.Rejected (ProviderError "access_denied") /\
  AuthManager.promise w <> AuthManager.Rejected InvalidState.
Proof. vm_compute. repeat split; discriminate. Qed.

(** C4 as the code has it: when the wait ends in a cancellation or in the
    timeout, [login] throws "Login failed" with that cause and leaves the
    manager as it was; when the wait ends with a token and one of the two
    writes works, [login] returns normally with the token cached: the two
    results differ. *)
Theorem login_cancelled_or_timed_out
  (srv : Server) (sessionId : string) (sgs : list AuthManager.Signal)
  (s : Manager) :
  (AuthManager.waitForAuthCallback srv sessionId sgs = Ok None ->
     AuthManager.login srv None sessionId sgs s
     = (Throw (LoginFailed CancelledOrFailed), s)) /\
  (AuthManager.waitForAuthCallback srv sessionId sgs = Throw Timeout ->
     AuthManager.login srv None sessionId sgs s
     = (Throw (LoginFailed Timeout), s)) /\
  (forall tok,
     AuthManager.waitForAuthCallback srv sessionId sgs = Ok (Some tok) ->
     write_fault (keytar s) = None \/ write_fault (secrets s) = None ->
     exists s',
       AuthManager.login srv None sessionId sgs s = (Ok tt, s') /\
       currentToken s' = Some tok).
Proof.
  unfold AuthManager.login, try_catch, bind, AuthManager.openExternal, ret,
    lift, throw.
  split; [|split].
  - intros ->. reflexivity.
  - intros ->. reflexivity.
  - intros tok -> Hw. rewrite storeToken_eq. cbn zeta.
    destruct (write_fault (keytar s)) as [kt|].
    + destruct Hw as [Hw|Hw]; [discriminate|]. rewrite Hw.
      eexists. split; reflexivity.
    + eexists. split; reflexivity.
Qed.

Lemma login_cancelled_or_timed_out_witness :
  let srv := Scenario.server (OkJson Scenario.exchange1) (NotOk "unused") in
  let s := mkManager None Scenario.healthy Scenario.healthy [] in
  AuthManager.login srv None Scenario.nonce [AuthManager.CancellationRequested] s
  = (Throw (LoginFailed CancelledOrFailed), s) /\
  AuthManager.login srv None Scenario.nonce [AuthManager.TimerFires] s
  = (Throw (LoginFailed Timeout), s).
Proof.
  intros srv s. split.
  - apply (proj1 (login_cancelled_or_timed_out srv Scenario.nonce
                    [AuthManager.CancellationRequested] s)).
    reflexivity.
  - apply (proj1 (proj2 (login_cancelled_or_timed_out srv Scenario.nonce
                           [AuthManager.TimerFires] s))).
    reflexivity.
Defined.

(** C4 as stated fails: the user cancels, or the timer fires, and [login]
    does not resolve: it throws to its caller. *)
Lemma login_raises_on_cancel_and_timeout :
  let srv := Scenario.server (OkJson Scenario.exchange1) (NotOk "unused") in
  let s := mkManager None Scenario.healthy Scenario.healthy [] in
  let cancelled :=
    AuthManager.login srv None Scenario.nonce [AuthManager.CancellationRequested] s in
  let timed_out :=
    AuthManager.login srv None Scenario.nonce [AuthManager.TimerFires] s in
  fst cancelled = Throw (LoginFailed CancelledOrFailed) /\
  fst cancelled <> Ok tt /\
  fst timed_out = Throw (LoginFailed Timeout) /\
  fst timed_out <> Ok tt /\
  error_to_string (LoginFailed CancelledOrFailed)
  = "Error: Login failed: Error: Authentication was cancelled or failed"%string /\
  error_to_string (LoginFailed Timeout)
  = "Error: Login failed: Error: Authentication timeout"%string.
Proof. vm_compute. repeat split; discriminate. Qed.

(** ** The scenarios of the specification, run on the model *)

(** Nonce [abc123], redirect [state=abc123, code=CODE1], exchange answered at
    clock reading 5000 with [expires_in: 3600]: the token is cached and
    written to keytar with [expiresAt = 5000 + 3600000], and
    [getValidToken] then returns ["AT1"] without any call to a backend. *)
Example scenario_login_then_getValidToken :
  let srv := Scenario.server (OkJson Scenario.exchange1) (NotOk "unused") in
  let s := mkManager None Scenario.healthy Scenario.healthy [] in
  let tok := AuthToken.mk "AT1" "RT1" 3605000 "u1" in
  let r := AuthManager.login srv None Scenario.nonce
             [AuthManager.UriDelivered [("code", "CODE1"); ("state", "abc123")];
              AuthManager.ExchangeSettles 5000] s in
  fst r = Ok tt /\
  currentToken (snd r) = Some tok /\
  stored (keytar (snd r)) = Some (Json.JSON_stringify tok) /\
  stored (secrets (snd r)) = None /\
  AuthManager.getValidToken srv 6000 6000 (snd r) = (Ok (Some "AT1"), snd r).
Proof. vm_compute. repeat split. Qed.

(** Redirect [state=xyz] for the nonce [abc123]: [login] throws the invalid
    state error and nothing is stored. *)
Example scenario_login_invalid_state :
  let srv := Scenario.server (OkJson Scenario.exchange1) (NotOk "unused") in
  let s := mkManager None Scenario.healthy Scenario.healthy [] in
  AuthManager.login srv None Scenario.nonce
    [AuthManager.UriDelivered [("code", "CODE1"); ("state", "xyz")]] s
  = (Throw (LoginFailed InvalidState), s).
Proof. reflexivity. Qed.

(** No signal at all: [login] is still waiting. *)
Example scenario_login_waiting :
  let srv := Scenario.server (OkJson Scenario.exchange1) (NotOk "unused") in
  let s := mkManager None Scenario.healthy Scenario.healthy [] in
  AuthManager.login srv None Scenario.nonce [] s = (Hang, s).
Proof. reflexivity. Qed.

(** keytar entirely unavailable: the write goes to the secret storage, and
    the next [getValidToken] on an empty cache finds no token, because
    [loadToken] gives up at the failed keytar read (see C5). *)
Example scenario_primary_unavailable :
  let srv := Scenario.server (OkJson Scenario.exchange1) (NotOk "unused") in
  let s := mkManager None (Scenario.unavailable None) Scenario.healthy [] in
  let r := AuthManager.storeToken Scenario.token1 s in
  fst r = Ok tt /\
  stored (secrets (snd r)) = Some (Json.JSON_stringify Scenario.token1) /\
  fst (AuthManager.getValidToken srv 5000 5000 (snd r)) = Ok None.
Proof. vm_compute. repeat split. Qed.

(* ================================================================== *)
(** * Further properties of the code *)

(** ** The authorization URL *)

Section AuthUrl.

Import Url.

Lemma urldecode_urlencode_app s : urldecode (urlencode s) = Some s.
Proof.
  induction s as [|a s IH]; [reflexivity|].
  cbn [urlencode].
  destruct a as [[] [] [] [] [] [] [] []]; cbn; rewrite IH; reflexivity.
Qed.

(** The serializer is injective on values. *)
Lemma urlencode_inj s1 s2 : urlencode s1 = urlencode s2 -> s1 = s2.
Proof.
  intro H. apply (f_equal urldecode) in H.
  rewrite !urldecode_urlencode_app in H. congruence.
Qed.

Lemma urlencode_unreserved s :
  all_chars unreserved s = true -> urlencode s = s.
Proof.
  induction s as [|a s IH]; [reflexivity|].
  cbn [all_chars urlencode]. intro H.
  apply andb_prop in H. destruct H as [Ha Hs]. rewrite (IH Hs).
  revert Ha. destruct a as [[] [] [] [] [] [] [] []]; cbn; congruence.
Qed.

Lemma length_append (a b : string) :
  String.length (a ++ b) = (String.length a + String.length b)%nat.
Proof. induction a as [|c a IH]; cbn; [reflexivity | now rewrite IH]. Qed.

Lemma append_inv_head (p a b : string) : (p ++ a = p ++ b)%string -> a = b.
Proof. induction p as [|c p IH]; cbn; [auto | intros [= H]; auto]. Qed.

Lemma append_inv_tail (t : string) : forall a b : string,
  (a ++ t = b ++ t)%string -> a = b.
Proof.
  induction a as [|c a IH]; destruct b as [|d b]; cbn; intro H.
  - reflexivity.
  - apply (f_equal String.length) in H. cbn in H. rewrite length_append in H. lia.
  - apply (f_equal String.length) in H. cbn in H. rewrite length_append in H. lia.
  - injection H as -> H. f_equal. apply IH. exact H.
Qed.

(** The URL, its fixed parts spelled out as they go on the wire. *)
Lemma buildAuthUrl_eq apiEndpoint sessionId :
  AuthManager.buildAuthUrl apiEndpoint sessionId
  = (apiEndpoint
     ++ "/auth/authorize?client_id=codelock-vscode&response_type=code&scope=read+write&state="
     ++ urlencode sessionId
     ++ "&redirect_uri=vscode%3A%2F%2Fcodelock-ai.codelock%2Fauth-callback")%string.
Proof.
  unfold AuthManager.buildAuthUrl. f_equal.
Qed.

End AuthUrl.

(** X1: for a session identifier made of letters, digits and [* - . _], as
    the ones [uuidv4()] gives, the authorization URL is the endpoint followed
    by the five parameters in their order, the scope as [read+write], the
    identifier verbatim as [state], and the redirect URI percent-encoded. *)
Theorem buildAuthUrl_wire_format (apiEndpoint sessionId : string) :
  Url.all_chars Url.unreserved sessionId = true ->
  AuthManager.buildAuthUrl apiEndpoint sessionId
  = (apiEndpoint
     ++ "/auth/authorize?client_id=codelock-vscode&response_type=code&scope=read+write&state="
     ++ sessionId
     ++ "&redirect_uri=vscode%3A%2F%2Fcodelock-ai.codelock%2Fauth-callback")%string.
Proof.
  intro H. rewrite buildAuthUrl_eq, (urlencode_unreserved sessionId H). reflexivity.
Qed.

Lemma buildAuthUrl_wire_format_witness :
  AuthManager.buildAuthUrl "https://api.codelock.ai"
    "3f2b8c1e-5d47-4a9b-8e6f-0a1b2c3d4e5f"
  = ("https://api.codelock.ai"
     ++ "/auth/authorize?client_id=codelock-vscode&response_type=code&scope=read+write&state="
     ++ "3f2b8c1e-5d47-4a9b-8e6f-0a1b2c3d4e5f"
     ++ "&redirect_uri=vscode%3A%2F%2Fcodelock-ai.codelock%2Fauth-callback")%string.
Proof.
  apply (buildAuthUrl_wire_format "https://api.codelock.ai"
           "3f2b8c1e-5d47-4a9b-8e6f-0a1b2c3d4e5f").
  reflexivity.
Defined.

(** X2: two login attempts with different session identifiers made of code
    units below 256 (ASCII and Latin-1, which covers what [uuidv4()] gives)
    open different URLs: on these the encoding of the [state] parameter
    loses nothing. Strings of this development are sequences of such code
    units; surrogates are outside it. *)
Theorem buildAuthUrl_injective (apiEndpoint s1 s2 : string) :
  s1 <> s2 ->
  AuthManager.buildAuthUrl apiEndpoint s1 <> AuthManager.buildAuthUrl apiEndpoint s2.
Proof.
  intros Hne H. apply Hne. rewrite !buildAuthUrl_eq in H.
  apply append_inv_head in H. apply append_inv_head in H.
  apply append_inv_tail in H. apply urlencode_inj. exact H.
Qed.

Lemma buildAuthUrl_injective_witness :
  AuthManager.buildAuthUrl "https://api.codelock.ai" "a b"
  <> AuthManager.buildAuthUrl "https://api.codelock.ai" "a+b".
Proof.
  apply (buildAuthUrl_injective "https://api.codelock.ai" "a b" "a+b").
  discriminate.
Defined.

(** ** More on the credential store *)

(** X3: [storeToken] throws only when both writes fail; the error it throws
    is then the one of the secret storage (the keytar error is dropped), and
    neither backend has changed. *)
Theorem storeToken_throws_iff_both_fail (token : AuthToken) (s : Manager)
  (e : AuthError) :
  fst (AuthManager.storeToken token s) = Throw e <->
  (exists kt st,
     write_fault (keytar s) = Some kt /\ write_fault (secrets s) = Some st /\
     e = PlatformError st /\
     keytar (snd (AuthManager.storeToken token s)) = keytar s /\
     secrets (snd (AuthManager.storeToken token s)) = secrets s).
Proof.
  rewrite storeToken_eq. cbn zeta.
  destruct (write_fault (keytar s)) as [kt|], (write_fault (secrets s)) as [st|];
    cbn [fst snd keytar secrets]; split.
  - intros [= <-]. exists kt, st. repeat split.
  - intros (kt' & st' & _ & [= <-] & -> & _). reflexivity.
  - discriminate.
  - intros (kt' & st' & _ & H & _). discriminate.
  - discriminate.
  - intros (kt' & st' & H & _). discriminate.
  - discriminate.
  - intros (kt' & st' & H & _). discriminate.
Qed.

Lemma storeToken_throws_iff_both_fail_witness :
  fst (AuthManager.storeToken Scenario.token1
         (mkManager None (Scenario.unavailable None) (Scenario.unavailable None) []))
  = Throw (PlatformError "Error: unavailable").
Proof.
  apply (proj2 (storeToken_throws_iff_both_fail Scenario.token1
                  (mkManager None (Scenario.unavailable None)
                             (Scenario.unavailable None) [])
                  (PlatformError "Error: unavailable"))).
  exists "Error: unavailable"%string, "Error: unavailable"%string.
  repeat split.
Defined.

(** X4: the read order of [loadToken] when the reads work and the backends
    hold nothing or what [storeToken] wrote. A token in keytar is returned
    after the single keytar call, the secret storage is not asked; with
    nothing (or an empty string) in keytar, the secret storage is asked and
    its token returned; with nothing in either, the answer is [null]. *)
Theorem loadToken_read_order (s : Manager) (t : AuthToken) :
  read_fault (keytar s) = None ->
  (stored (keytar s) = Some (Json.JSON_stringify t) ->
     AuthManager.loadToken s
     = (Ok (Some t), mkManager (currentToken s) (keytar s) (secrets s)
                               (calls s ++ [KeytarGetPassword]))) /\
  (truthy (stored (keytar s)) = false -> read_fault (secrets s) = None ->
     (stored (secrets s) = Some (Json.JSON_stringify t) ->
        AuthManager.loadToken s
        = (Ok (Some t), mkManager (currentToken s) (keytar s) (secrets s)
                                  (calls s ++ [KeytarGetPassword; SecretsGet]))) /\
     (truthy (stored (secrets s)) = false ->
        AuthManager.loadToken s
        = (Ok None, mkManager (currentToken s) (keytar s) (secrets s)
                              (calls s ++ [KeytarGetPassword; SecretsGet])))).
Proof.
  intro Hr. rewrite loadToken_eq, Hr. split.
  - intro Hk. rewrite Hk, truthy_stringify. cbn [AuthManager.text_of].
    rewrite JSON_parse_stringify. reflexivity.
  - intros Hk Hrs. rewrite Hk, Hrs. split.
    + intro Hs. rewrite Hs, truthy_stringify. cbn [AuthManager.text_of].
      rewrite JSON_parse_stringify. reflexivity.
    + intros ->. reflexivity.
Qed.

Lemma loadToken_read_order_witness :
  AuthManager.loadToken
    (mkManager None (Scenario.holding EmptyString)
               (Scenario.holding (Json.JSON_stringify Scenario.token1)) [])
  = (Ok (Some Scenario.token1),
     mkManager None (Scenario.holding EmptyString)
               (Scenario.holding (Json.JSON_stringify Scenario.token1))
               [KeytarGetPassword; SecretsGet]).
Proof.
  apply (proj1 (proj2 (loadToken_read_order
                         (mkManager None (Scenario.holding EmptyString)
                            (Scenario.holding (Json.JSON_stringify Scenario.token1)) [])
                         Scenario.token1 eq_refl) eq_refl eq_refl)).
  reflexivity.
Defined.

(** ** More on the token lifecycle *)

Section LifecycleMore.

Import AuthManager.

Variable srv : Server.
Variables now now_refresh : Z.

Ltac run_valid :=
  unfold getValidToken, bind, try_catch, get_currentToken, set_currentToken,
    lift, ret;
  cbn [currentToken keytar secrets calls].

Lemma unexpired_test tok :
  now < AuthToken.expiresAt tok -> (now >=? AuthToken.expiresAt tok) = false.
Proof. intro H. rewrite Z.geb_leb. apply Z.leb_gt. exact H. Qed.

(** An unexpired cached token: no call, no change. *)
Lemma getValidToken_cached_unexpired s tok :
  currentToken s = Some tok ->
  now < AuthToken.expiresAt tok ->
  getValidToken srv now now_refresh s = (Ok (Some (AuthToken.accessToken tok)), s).
Proof.
  intros Hcur Hnow. run_valid. rewrite Hcur. cbn beta iota.
  rewrite Hcur. cbn beta iota. rewrite (unexpired_test tok Hnow).
  cbn beta iota. rewrite Hcur. reflexivity.
Qed.

(** Nothing cached and nothing found: [null], only reads were made. *)
Lemma getValidToken_nothing s :
  token_in_use s = None ->
  exists cs,
    getValidToken srv now now_refresh s
    = (Ok None, mkManager None (keytar s) (secrets s) (calls s ++ cs)).
Proof.
  unfold token_in_use. destruct (currentToken s) as [cur|] eqn:Hcur; [discriminate|].
  destruct (loadToken_total s) as (v & cs & E). rewrite E. cbn [fst].
  intros ->. exists cs. run_valid. rewrite Hcur, E. reflexivity.
Qed.

Lemma refreshToken_cases rt :
  (exists e, refreshToken srv now_refresh rt = Throw e) \/
  (exists d, token_by_refresh srv rt = OkJson d).
Proof.
  unfold refreshToken. destruct (token_by_refresh srv rt); eauto.
Qed.

(** The refresh worked and both writes failed: the new token is dropped. *)
Lemma getValidToken_cached_store_fails s tok fresh kt st :
  currentToken s = Some tok ->
  AuthToken.expiresAt tok <= now ->
  refreshToken srv now_refresh (AuthToken.refreshToken tok) = Ok fresh ->
  write_fault (keytar s) = Some kt ->
  write_fault (secrets s) = Some st ->
  getValidToken srv now now_refresh s
  = (Ok None,
     mkManager None (cleared (keytar s)) (cleared (secrets s))
       (calls s ++ [KeytarSetPassword (Json.JSON_stringify fresh);
                    SecretsStore (Json.JSON_stringify fresh);
                    KeytarDeletePassword; SecretsDelete])).
Proof.
  intros Hcur Hexp Href Hk Hs. run_valid. rewrite Hcur. cbn beta iota.
  rewrite Hcur. cbn beta iota.
  rewrite (expired_test now tok Hexp), Href. cbn beta iota.
  rewrite storeToken_eq. cbn [currentToken keytar secrets calls]. cbn zeta.
  rewrite Hk, Hs. rewrite clearToken_eq. cbn [currentToken keytar secrets calls].
  rewrite <- app_assoc. reflexivity.
Qed.

(** With a cached token, [getValidToken] returns, and what it returns is the
    access token of what is cached afterwards. *)
Lemma getValidToken_cached_returns s tok :
  currentToken s = Some tok ->
  exists v s',
    getValidToken srv now now_refresh s = (Ok v, s') /\
    v = option_map AuthToken.accessToken (currentToken s').
Proof.
  intro Hcur.
  destruct (Z.lt_ge_cases now (AuthToken.expiresAt tok)) as [Hlt|Hge].
  - rewrite (getValidToken_cached_unexpired s tok Hcur Hlt).
    eexists. eexists. split; [reflexivity|]. rewrite Hcur. reflexivity.
  - destruct (refreshToken_cases (AuthToken.refreshToken tok)) as [[e He]|[d Hd]].
    + rewrite (getValidToken_cached_refresh_fails srv now now_refresh s tok e Hcur Hge He).
      eexists. eexists. split; reflexivity.
    + pose proof (refreshToken_ok srv now_refresh _ d Hd) as Href.
      destruct (write_fault (keytar s)) as [kt|] eqn:Hk;
        [destruct (write_fault (secrets s)) as [st|] eqn:Hs|].
      * rewrite (getValidToken_cached_store_fails s tok _ kt st Hcur Hge Href Hk Hs).
        eexists. eexists. split; reflexivity.
      * eexists. eexists. split.
        -- apply (getValidToken_cached_refresh_ok srv now now_refresh s tok _ Hcur Hge Href).
           ++ rewrite storeToken_eq. cbn [keytar secrets calls currentToken].
              rewrite Hk, Hs. reflexivity.
           ++ reflexivity.
        -- reflexivity.
      * eexists. eexists. split.
        -- apply (getValidToken_cached_refresh_ok srv now now_refresh s tok _ Hcur Hge Href).
           ++ rewrite storeToken_eq. cbn [keytar secrets calls currentToken].
              rewrite Hk. reflexivity.
           ++ reflexivity.
        -- reflexivity.
Qed.

Lemma getValidToken_returns s :
  exists v s',
    getValidToken srv now now_refresh s = (Ok v, s') /\
    v = option_map AuthToken.accessToken (currentToken s').
Proof.
  destruct (token_in_use s) as [tok|] eqn:Huse.
  - destruct (getValidToken_reload srv now now_refresh s tok Huse) as [cs E].
    rewrite E. apply (getValidToken_cached_returns _ tok). reflexivity.
  - destruct (getValidToken_nothing s Huse) as [cs E]. rewrite E.
    eexists. eexists. split; reflexivity.
Qed.

(** [logout], whatever the revoke request does. *)
Lemma logout_eq s :
  logout srv s
  = (Ok tt, mkManager None (cleared (keytar s)) (cleared (secrets s))
                      (calls s ++ [KeytarDeletePassword; SecretsDelete])).
Proof.
  unfold logout, bind, try_catch, get_currentToken, lift, ret, set_currentToken.
  destruct (currentToken s) as [tok|].
  - unfold revokeToken. destruct (revoke srv (AuthToken.accessToken tok));
      rewrite clearToken_eq; reflexivity.
  - rewrite clearToken_eq. reflexivity.
Qed.

End LifecycleMore.



(** X6: while the cached token is not expired, and on a cold cache while the
    token found in the store is not expired, [getValidToken] returns its
    access token, changes neither backend, and ends with the token cached;
    when the token was already cached it makes no backend call at all. *)
Theorem getValidToken_unexpired
  (srv : Server) (now now_refresh : Z) (s : Manager) (tok : AuthToken) :
  token_in_use s = Some tok ->
  now < AuthToken.expiresAt tok ->
  exists s',
    AuthManager.getValidToken srv now now_refresh s
    = (Ok (Some (AuthToken.accessToken tok)), s') /\
    currentToken s' = Some tok /\
    keytar s' = keytar s /\ secrets s' = secrets s /\
    (currentToken s = Some tok -> s' = s).
Proof.
  intros Huse Hnow. destruct (currentToken s) as [cur|] eqn:Hcur.
  - assert (cur = tok) as -> by (unfold token_in_use in Huse; rewrite Hcur in Huse; congruence).
    exists s. rewrite (getValidToken_cached_unexpired srv now now_refresh s tok Hcur Hnow).
    repeat split. exact Hcur.
  - destruct (getValidToken_reload srv now now_refresh s tok Huse) as [cs E].
    rewrite E.
    rewrite (getValidToken_cached_unexpired srv now now_refresh
               (mkManager (Some tok) (keytar s) (secrets s) (calls s ++ cs))
               tok eq_refl Hnow).
    eexists. split; [reflexivity|]. repeat split. discriminate.
Qed.

Lemma getValidToken_unexpired_witness :
  let srv := Scenario.server (NotOk "unused") (NotOk "unused") in
  let s := mkManager None (Scenario.holding (Json.JSON_stringify Scenario.token1))
                     Scenario.healthy [] in
  exists s',
    AuthManager.getValidToken srv 5000 5000 s = (Ok (Some "AT1"), s') /\
    currentToken s' = Some Scenario.token1.
Proof.
  intros srv s.
  destruct (getValidToken_unexpired srv 5000 5000 s Scenario.token1)
    as (s' & E & Hc & _).
  - vm_compute. reflexivity.
  - cbn. lia.
  - exists s'. split; [exact E | exact Hc].
Defined.

(** X7: when the refresh of the expired token succeeds but neither backend
    accepts the new token, [getValidToken] returns [null]: the token just
    obtained is dropped, the cache is emptied and both deletions are called,
    as after a failed refresh. *)
Theorem getValidToken_store_failure_logs_out
  (srv : Server) (now now_refresh : Z) (s : Manager) (tok : AuthToken)
  (d : RefreshData) (kt st : string) :
  token_in_use s = Some tok ->
  AuthToken.expiresAt tok <= now ->
  token_by_refresh srv (AuthToken.refreshToken tok) = OkJson d ->
  write_fault (keytar s) = Some kt ->
  write_fault (secrets s) = Some st ->
  exists s',
    AuthManager.getValidToken srv now now_refresh s = (Ok None, s') /\
    AuthManager.isAuthenticated s' = false /\
    keytar s' = cleared (keytar s) /\ secrets s' = cleared (secrets s) /\
    (exists before,
       calls s' = before ++ [KeytarDeletePassword; SecretsDelete]).
Proof.
  intros Huse Hexp Hd Hk Hs.
  destruct (getValidToken_reload srv now now_refresh s tok Huse) as [cs E].
  pose proof (refreshToken_ok srv now_refresh _ d Hd) as Href.
  rewrite E.
  rewrite (getValidToken_cached_store_fails srv now now_refresh
             (mkManager (Some tok) (keytar s) (secrets s) (calls s ++ cs))
             tok _ kt st eq_refl Hexp Href Hk Hs).
  eexists. split; [reflexivity|]. cbn [currentToken keytar secrets calls].
  repeat split.
  exists ((calls s ++ cs) ++
          [KeytarSetPassword
             (Json.JSON_stringify
                (AuthToken.mk (access_token d)
                   (js_or (refresh_token d) (AuthToken.refreshToken tok))
                   (now_refresh + expires_in d * 1000) (user_id d)));
           SecretsStore
             (Json.JSON_stringify
                (AuthToken.mk (access_token d)
                   (js_or (refresh_token d) (AuthToken.refreshToken tok))
                   (now_refresh + expires_in d * 1000) (user_id d)))]).
  repeat rewrite <- List.app_assoc. reflexivity.
Qed.

Lemma getValidToken_store_failure_logs_out_witness :
  let srv := Scenario.server (NotOk "unused")
               (OkJson (mkRefreshData "AT2" None 60 "u1")) in
  let s := mkManager (Some Scenario.expired_token) (Scenario.unavailable None)
                     (Scenario.unavailable None) [] in
  exists s',
    AuthManager.getValidToken srv 5000 5000 s = (Ok None, s') /\
    AuthManager.isAuthenticated s' = false.
Proof.
  intros srv s.
  destruct (getValidToken_store_failure_logs_out srv 5000 5000 s
              Scenario.expired_token (mkRefreshData "AT2" None 60 "u1")
              "Error: unavailable" "Error: unavailable")
    as (s' & E & A & _).
  - reflexivity.
  - cbn. lia.
  - reflexivity.
  - reflexivity.
  - reflexivity.
  - exists s'. split; [exact E | exact A].
Defined.



(** ** [logout] and [login] composed with [getValidToken] *)

Lemma token_in_use_after_clear (s : Manager) :
  currentToken s = None ->
  stored (keytar s) = None -> stored (secrets s) = None ->
  token_in_use s = None.
Proof.
  intros Hc Hk Hs. unfold token_in_use. rewrite Hc, loadToken_eq, Hk, Hs.
  destruct (read_fault (keytar s)); [reflexivity|]. cbn [truthy].
  destruct (read_fault (secrets s)); reflexivity.
Qed.

(** X9: after a [logout] whose two deletions work, [getValidToken] returns
    [null] whatever the server and the clock, [isAuthenticated] is false and
    [getUserId] is [null]. *)
Theorem logout_then_getValidToken
  (srv : Server) (now now_refresh : Z) (s : Manager) :
  delete_fault (keytar s) = None ->
  delete_fault (secrets s) = None ->
  exists s1 s2,
    AuthManager.logout srv s = (Ok tt, s1) /\
    AuthManager.getUserId s1 = None /\
    AuthManager.getValidToken srv now now_refresh s1 = (Ok None, s2) /\
    AuthManager.isAuthenticated s2 = false.
Proof.
  intros Hk Hs. rewrite logout_eq. eexists. 
  destruct (getValidToken_nothing srv now now_refresh
              (mkManager None (cleared (keytar s)) (cleared (secrets s))
                         (calls s ++ [KeytarDeletePassword; SecretsDelete])))
    as [cs E].
  { apply token_in_use_after_clear; cbn [currentToken keytar secrets];
      [reflexivity | apply stored_cleared; exact Hk | apply stored_cleared; exact Hs]. }
  eexists. split; [reflexivity|]. split; [reflexivity|].
  split; [exact E | reflexivity].
Qed.

Lemma logout_then_getValidToken_witness :
  let srv := Scenario.server (NotOk "unused") (NotOk "unused") in
  let s := mkManager (Some Scenario.token1)
                     (Scenario.holding (Json.JSON_stringify Scenario.token1))
                     Scenario.healthy [] in
  exists s1 s2,
    AuthManager.logout srv s = (Ok tt, s1) /\
    AuthManager.getUserId s1 = None /\
    AuthManager.getValidToken srv 5000 5000 s1 = (Ok None, s2) /\
    AuthManager.isAuthenticated s2 = false.
Proof.
  intros srv s.
  apply (logout_then_getValidToken srv 5000 5000 s); reflexivity.
Defined.

(** X10: when keytar refuses the deletion, [logout] still returns normally
    with an empty cache, but an unexpired token that keytar holds and lets
    read is found again by the next [getValidToken], which returns its access
    token and leaves [isAuthenticated] true. *)
Theorem logout_undone_by_failed_deletion
  (srv : Server) (now now_refresh : Z) (s : Manager) (tok : AuthToken)
  (text : string) :
  delete_fault (keytar s) = Some text ->
  read_fault (keytar s) = None ->
  stored (keytar s) = Some (Json.JSON_stringify tok) ->
  now < AuthToken.expiresAt tok ->
  exists s1 s2,
    AuthManager.logout srv s = (Ok tt, s1) /\
    AuthManager.isAuthenticated s1 = false /\
    AuthManager.getValidToken srv now now_refresh s1
    = (Ok (Some (AuthToken.accessToken tok)), s2) /\
    AuthManager.isAuthenticated s2 = true.
Proof.
  intros Hd Hr Hk Hnow. rewrite logout_eq.
  assert (Hc : cleared (keytar s) = keytar s) by (unfold cleared; rewrite Hd; reflexivity).
  rewrite Hc.
  set (s1 := mkManager None (keytar s) (cleared (secrets s))
                       (calls s ++ [KeytarDeletePassword; SecretsDelete])).
  exists s1.
  assert (Huse : token_in_use s1 = Some tok).
  { unfold token_in_use. cbn [currentToken s1].
    rewrite loadToken_eq. cbn [keytar s1]. rewrite Hr, Hk, truthy_stringify.
    cbn [fst AuthManager.text_of]. rewrite JSON_parse_stringify. reflexivity. }
  destruct (getValidToken_reload srv now now_refresh s1 tok Huse) as [cs E].
  eexists. split; [reflexivity|]. split; [reflexivity|]. split.
  - rewrite E.
    apply (getValidToken_cached_unexpired srv now now_refresh
             (mkManager (Some tok) (keytar s1) (secrets s1) (calls s1 ++ cs))
             tok eq_refl Hnow).
  - reflexivity.
Qed.

Lemma logout_undone_by_failed_deletion_witness :
  let srv := Scenario.server (NotOk "unused") (NotOk "unused") in
  let s := mkManager (Some Scenario.token1)
             (mkBackend (Some (Json.JSON_stringify Scenario.token1)) None None
                        (Some "Error: locked"))
             Scenario.healthy [] in
  exists s1 s2,
    AuthManager.logout srv s = (Ok tt, s1) /\
    AuthManager.isAuthenticated s1 = false /\
    AuthManager.getValidToken srv 5000 5000 s1 = (Ok (Some "AT1"), s2) /\
    AuthManager.isAuthenticated s2 = true.
Proof.
  intros srv s.
  apply (logout_undone_by_failed_deletion srv 5000 5000 s Scenario.token1
           "Error: locked"); try reflexivity.
Defined.

Section LoginMore.

Import AuthManager.

Variable srv : Server.
Variable sessionId : string.
Variable sgs : list Signal.

(** [login] by cases on the browser and on how the wait ends. *)
Lemma login_eq open_fault s :
  login srv open_fault sessionId sgs s =
  match open_fault with
  | Some text => (Throw (LoginFailed (PlatformError text)), s)
  | None =>
      match waitForAuthCallback srv sessionId sgs with
      | Hang => (Hang, s)
      | Throw e => (Throw (LoginFailed e), s)
      | Ok None => (Throw (LoginFailed CancelledOrFailed), s)
      | Ok (Some tok) =>
          match storeToken tok s with
          | (Ok _, s1) =>
              (Ok tt, mkManager (Some tok) (keytar s1) (secrets s1) (calls s1))
          | (Throw e, s1) => (Throw (LoginFailed e), s1)
          | (Hang, s1) => (Hang, s1)
          end
      end
  end.
Proof.
  unfold login, try_catch, bind, openExternal, ret, lift, throw, set_currentToken.
  destruct open_fault as [text|]; [reflexivity|].
  destruct (waitForAuthCallback srv sessionId sgs) as [[tok|]|e|]; try reflexivity.
  destruct (storeToken tok s) as [[u|e|] s1]; reflexivity.
Qed.

End LoginMore.

(** X11: when [login] returns normally, the wait ended with a token; that
    token is cached, its serialization is in exactly one backend (keytar, or
    the secret storage with keytar untouched), [getUserId] gives its user
    unless that is empty, and until its expiry [getValidToken] returns its
    access token without a backend call. *)
Theorem login_success_then_getValidToken
  (srv : Server) (open_fault : option string) (sessionId : string)
  (sgs : list AuthManager.Signal) (s s' : Manager) :
  AuthManager.login srv open_fault sessionId sgs s = (Ok tt, s') ->
  exists tok,
    open_fault = None /\
    AuthManager.waitForAuthCallback srv sessionId sgs = Ok (Some tok) /\
    currentToken s' = Some tok /\
    ((stored (keytar s') = Some (Json.JSON_stringify tok) /\ secrets s' = secrets s) \/
     (stored (secrets s') = Some (Json.JSON_stringify tok) /\ keytar s' = keytar s)) /\
    (AuthToken.userId tok <> EmptyString ->
       AuthManager.getUserId s' = Some (AuthToken.userId tok)) /\
    (forall now now_refresh,
       now < AuthToken.expiresAt tok ->
       AuthManager.getValidToken srv now now_refresh s'
       = (Ok (Some (AuthToken.accessToken tok)), s')).
Proof.
  rewrite login_eq. destruct open_fault as [text|]; [discriminate|].
  destruct (AuthManager.waitForAuthCallback srv sessionId sgs) as [[tok|]|e|];
    try discriminate.
  rewrite storeToken_eq. cbn zeta.
  intro H. exists tok.
  assert (Hcur : currentToken s' = Some tok).
  { destruct (write_fault (keytar s)), (write_fault (secrets s));
      try discriminate; injection H as <-; reflexivity. }
  split; [reflexivity|]. split; [reflexivity|]. split; [exact Hcur|].
  split; [|split].
  - destruct (write_fault (keytar s)), (write_fault (secrets s));
      try discriminate; injection H as <-; cbn; auto.
  - intro Hu. unfold AuthManager.getUserId. rewrite Hcur.
    destruct (String.eqb_spec (AuthToken.userId tok) EmptyString);
      [contradiction | reflexivity].
  - intros now now_refresh Hnow.
    apply getValidToken_cached_unexpired; assumption.
Qed.

Lemma login_success_then_getValidToken_witness :
  let srv := Scenario.server (OkJson Scenario.exchange1) (NotOk "unused") in
  let s := mkManager None Scenario.healthy Scenario.healthy [] in
  let sgs := [AuthManager.UriDelivered [("code", "CODE1"); ("state", "abc123")];
              AuthManager.ExchangeSettles 5000] in
  exists tok,
    currentToken (snd (AuthManager.login srv None Scenario.nonce sgs s)) = Some tok /\
    AuthManager.waitForAuthCallback srv Scenario.nonce sgs = Ok (Some tok).
Proof.
  intros srv s sgs.
  destruct (login_success_then_getValidToken srv None Scenario.nonce sgs s
              (snd (AuthManager.login srv None Scenario.nonce sgs s)))
    as (tok & _ & Hw & Hc & _).
  - reflexivity.
  - exists tok. split; [exact Hc | exact Hw].
Defined.

(** X12: when [login] throws, the error is a "Login failed" with its cause,
    and the cache and the content of both backends are as before: a failed
    login stores nothing, also when the token was obtained and only the
    writes failed. *)
Theorem login_failure_changes_nothing
  (srv : Server) (open_fault : option string) (sessionId : string)
  (sgs : list AuthManager.Signal) (s s' : Manager) (e : AuthError) :
  AuthManager.login srv open_fault sessionId sgs s = (Throw e, s') ->
  (exists cause, e = LoginFailed cause) /\
  currentToken s' = currentToken s /\
  keytar s' = keytar s /\ secrets s' = secrets s.
Proof.
  rewrite login_eq. destruct open_fault as [text|].
  - intros [= <- <-]. repeat split. eauto.
  - destruct (AuthManager.waitForAuthCallback srv sessionId sgs) as [[tok|]|e0|].
    + rewrite storeToken_eq. cbn zeta.
      destruct (write_fault (keytar s)), (write_fault (secrets s));
        try discriminate.
      intros [= <- <-]. repeat split. eauto.
    + intros [= <- <-]. repeat split. eauto.
    + intros [= <- <-]. repeat split. eauto.
    + discriminate.
Qed.

Lemma login_failure_changes_nothing_witness :
  let srv := Scenario.server (OkJson Scenario.exchange1) (NotOk "unused") in
  let s := mkManager None (Scenario.unavailable None) (Scenario.unavailable None) [] in
  let sgs := [AuthManager.UriDelivered [("code", "CODE1"); ("state", "abc123")];
              AuthManager.ExchangeSettles 5000] in
  (exists cause, LoginFailed (PlatformError "Error: unavailable") = LoginFailed cause) /\
  currentToken (snd (AuthManager.login srv None Scenario.nonce sgs s)) = None.
Proof.
  intros srv s sgs.
  destruct (login_failure_changes_nothing srv None Scenario.nonce sgs s
              (snd (AuthManager.login srv None Scenario.nonce sgs s))
              (LoginFailed (PlatformError "Error: unavailable")))
    as (Hc & Hcur & _).
  - reflexivity.
  - split; [exact Hc | exact Hcur].
Defined.

(** ** More on the login rendezvous *)

Section RendezvousMore.

Import AuthManager.

Variable srv : Server.
Variable sessionId : string.

(** The state [handleUri] leaves when it accepts a redirect. *)
Lemma handleUri_accepts q :
  truthy (query_get "error" q) = false ->
  query_get "state" q = Some sessionId ->
  truthy (query_get "code" q) = true ->
  signal srv sessionId registered (UriDelivered q)
  = mkWaiting Pending false false (Some (text_of (query_get "code" q))).
Proof.
  intros He Hs Hc. cbn. unfold handleUri. rewrite He, Hs, Hc. cbn.
  rewrite String.eqb_refl. reflexivity.
Qed.

(** While the exchange is in flight, the timer and further redirects do
    nothing. *)
Lemma in_flight_idle code rest :
  Forall (fun sg => sg = TimerFires \/ exists q, sg = UriDelivered q) rest ->
  signals srv sessionId rest (mkWaiting Pending false false (Some code))
  = mkWaiting Pending false false (Some code).
Proof.
  induction 1 as [|sg rest Hsg _ IH]; [reflexivity|].
  unfold signals in *. cbn [fold_left].
  destruct Hsg as [->|[q ->]]; cbn [signal timer_armed handler_registered]; exact IH.
Qed.

(** A token that comes out of an exchange in flight is the one the exchange
    of that code gave. *)
Lemma in_flight_completed code t rest :
  promise (signals srv sessionId rest (mkWaiting Pending false false (Some code)))
  = Fulfilled (Some t) ->
  exists now, In (ExchangeSettles now) rest /\
              exchangeCodeForToken srv now code = Ok t.
Proof.
  induction rest as [|sg rest IH]; [discriminate|].
  unfold signals in *. cbn [fold_left].
  destruct sg as [|q| |now]; cbn [signal timer_armed handler_registered exchanging].
  - intro H. destruct (IH H) as (now & Hin & Hx). exists now. split; [right|]; assumption.
  - intro H. destruct (IH H) as (now & Hin & Hx). exists now. split; [right|]; assumption.
  - change (fold_left (signal srv sessionId) rest ?w)
      with (signals srv sessionId rest w).
    rewrite settled_signals by (cbn; discriminate). cbn. discriminate.
  - unfold onExchange.
    destruct (exchangeCodeForToken srv now code) as [t'|e|] eqn:Ex.
    + change (fold_left (signal srv sessionId) rest ?w)
        with (signals srv sessionId rest w).
      rewrite settled_signals by (cbn; discriminate). cbn.
      intros [= <-]. exists now. split; [left; reflexivity | exact Ex].
    + change (fold_left (signal srv sessionId) rest ?w)
        with (signals srv sessionId rest w).
      rewrite settled_signals by (cbn; discriminate). cbn. discriminate.
    + intro H. destruct (IH H) as (now' & Hin & Hx). exists now'.
      split; [right|]; assumption.
Qed.

Lemma truthy_text v : truthy v = true -> v = Some (text_of v) /\ text_of v <> EmptyString.
Proof.
  destruct v as [x|]; cbn; [|discriminate].
  destruct (String.eqb_spec x EmptyString); [discriminate|]. auto.
Qed.

Lemma completed_by_exchange sgs t :
  promise (signals srv sessionId sgs registered) = Fulfilled (Some t) ->
  exists q code now,
    first_uri sgs = Some q /\
    query_get "code" q = Some code /\ code <> EmptyString /\
    In (ExchangeSettles now) sgs /\
    exchangeCodeForToken srv now code = Ok t.
Proof.
  induction sgs as [|sg sgs IH]; [discriminate|].
  unfold signals in *. cbn [fold_left].
  destruct sg as [|q| |now].
  - change (fold_left (signal srv sessionId) sgs ?w)
      with (signals srv sessionId sgs w).
    rewrite settled_signals by (cbn; discriminate). cbn. discriminate.
  - change (fold_left (signal srv sessionId) sgs ?w)
      with (signals srv sessionId sgs w).
    cbn [first_uri signal registered handler_registered]. unfold handleUri.
    destruct (truthy (query_get "error" q));
      [rewrite settled_signals by (cbn; discriminate); cbn; discriminate|].
    destruct (state_differs (query_get "state" q) sessionId);
      [rewrite settled_signals by (cbn; discriminate); cbn; discriminate|].
    destruct (truthy (query_get "code" q)) eqn:Ec; cbn [negb];
      [|rewrite settled_signals by (cbn; discriminate); cbn; discriminate].
    cbn [dispose clearTimeout promise timer_armed handler_registered exchanging].
    intro H. destruct (in_flight_completed _ t sgs H) as (now & Hin & Hx).
    destruct (truthy_text _ Ec) as [Hq Hne].
    exists q, (text_of (query_get "code" q)), now.
    repeat split; try assumption. right. exact Hin.
  - change (fold_left (signal srv sessionId) sgs ?w)
      with (signals srv sessionId sgs w).
    rewrite settled_signals by (cbn; discriminate). cbn. discriminate.
  - cbn [signal registered exchanging first_uri]. intro H.
    destruct (IH H) as (q & code & now' & Hf & Hc & Hne & Hin & Hx).
    exists q, code, now'. repeat split; try assumption. right. exact Hin.
Qed.

(** Once a redirect has been delivered, further redirects change nothing. *)
Lemma redirects_after_first w q qs :
  signals srv sessionId (map UriDelivered qs) (signal srv sessionId w (UriDelivered q))
  = signal srv sessionId w (UriDelivered q).
Proof.
  assert (Hh : handler_registered (signal srv sessionId w (UriDelivered q)) = false).
  { destruct w as [p timer handler exch]. cbn. destruct handler; [|reflexivity].
    unfold handleUri.
    destruct (truthy (query_get "error" q)); [destruct p; reflexivity|].
    destruct (state_differs (query_get "state" q) sessionId); [destruct p; reflexivity|].
    destruct (negb (truthy (query_get "code" q))); destruct p; reflexivity. }
  revert Hh. generalize (signal srv sessionId w (UriDelivered q)). intros w1 Hh.
  induction qs as [|q' qs IH]; [reflexivity|].
  unfold signals in *. cbn [map fold_left signal]. rewrite Hh. exact IH.
Qed.

End RendezvousMore.

(** X13: the URI handler is single use: whatever the state, once one
    redirect has been delivered, any number of further redirects leaves the
    state, and so the outcome, as the first one left it. *)
Theorem handleUri_single_use
  (srv : Server) (sessionId : string) (w : AuthManager.Waiting)
  (q : list (string * string)) (qs : list (list (string * string))) :
  AuthManager.signals srv sessionId (map AuthManager.UriDelivered qs)
    (AuthManager.signal srv sessionId w (AuthManager.UriDelivered q))
  = AuthManager.signal srv sessionId w (AuthManager.UriDelivered q).
Proof. apply redirects_after_first. Qed.

(** X14: a token [waitForAuthCallback] resolves with is the result of
    exchanging the non-empty [code] parameter of the first redirect
    delivered, at one of the moments the exchange settled. *)
Theorem waitForAuthCallback_token_from_code
  (srv : Server) (sessionId : string) (sgs : list AuthManager.Signal)
  (t : AuthToken) :
  AuthManager.waitForAuthCallback srv sessionId sgs = Ok (Some t) ->
  exists q code now,
    AuthManager.first_uri sgs = Some q /\
    query_get "code" q = Some code /\ code <> EmptyString /\
    In (AuthManager.ExchangeSettles now) sgs /\
    AuthManager.exchangeCodeForToken srv now code = Ok t.
Proof.
  unfold AuthManager.waitForAuthCallback.
  destruct (AuthManager.promise
              (AuthManager.signals srv sessionId sgs AuthManager.registered))
    as [|v|e] eqn:E; try discriminate.
  intros [= ->]. exact (completed_by_exchange srv sessionId sgs t E).
Qed.

Lemma waitForAuthCallback_token_from_code_witness :
  exists q code now,
    AuthManager.first_uri
      [AuthManager.UriDelivered [("code", "CODE1"); ("state", "abc123")];
       AuthManager.ExchangeSettles 5000] = Some q /\
    query_get "code" q = Some code /\ code <> EmptyString /\
    In (AuthManager.ExchangeSettles now)
       [AuthManager.UriDelivered [("code", "CODE1"); ("state", "abc123")];
        AuthManager.ExchangeSettles 5000] /\
    AuthManager.exchangeCodeForToken
      (Scenario.server (OkJson Scenario.exchange1) (NotOk "unused")) now code
    = Ok (AuthToken.mk "AT1" "RT1" 3605000 "u1").
Proof.
  apply (waitForAuthCallback_token_from_code
           (Scenario.server (OkJson Scenario.exchange1) (NotOk "unused"))
           Scenario.nonce).
  reflexivity.
Defined.

(** X15: once a redirect has been accepted the timer is cleared: as long as
    the exchange does not settle and the user does not cancel, [login] keeps
    waiting, whatever timer firings and redirects follow; the five minute
    timeout no longer applies. *)
Theorem login_waits_for_exchange
  (srv : Server) (sessionId : string) (q : list (string * string))
  (rest : list AuthManager.Signal) (s : Manager) :
  truthy (query_get "error" q) = false ->
  query_get "state" q = Some sessionId ->
  truthy (query_get "code" q) = true ->
  Forall (fun sg => sg = AuthManager.TimerFires \/
                    exists q', sg = AuthManager.UriDelivered q') rest ->
  AuthManager.login srv None sessionId (AuthManager.UriDelivered q :: rest) s
  = (Hang, s).
Proof.
  intros He Hs Hc Hrest. rewrite login_eq.
  unfold AuthManager.waitForAuthCallback, AuthManager.signals. cbn [fold_left].
  rewrite (handleUri_accepts srv sessionId q He Hs Hc).
  change (fold_left (AuthManager.signal srv sessionId) rest ?w)
    with (AuthManager.signals srv sessionId rest w).
  rewrite (in_flight_idle srv sessionId _ rest Hrest). reflexivity.
Qed.

Lemma login_waits_for_exchange_witness :
  AuthManager.login (Scenario.server (OkJson Scenario.exchange1) (NotOk "unused"))
    None Scenario.nonce
    [AuthManager.UriDelivered [("code", "CODE1"); ("state", "abc123")];
     AuthManager.TimerFires]
    (mkManager None Scenario.healthy Scenario.healthy [])
  = (Hang, mkManager None Scenario.healthy Scenario.healthy []).
Proof.
  apply (login_waits_for_exchange
           (Scenario.server (OkJson Scenario.exchange1) (NotOk "unused"))
           Scenario.nonce [("code", "CODE1"); ("state", "abc123")]
           [AuthManager.TimerFires]); try reflexivity.
  constructor; [left; reflexivity | constructor].
Defined.

(** X16: a cancellation that arrives after the redirect was accepted and
    before the exchange settles wins: [login] throws the cancellation error
    and stores nothing, also when the exchange then succeeds. *)
Theorem login_cancelled_during_exchange
  (srv : Server) (sessionId : string) (q : list (string * string))
  (rest : list AuthManager.Signal) (s : Manager) :
  truthy (query_get "error" q) = false ->
  query_get "state" q = Some sessionId ->
  truthy (query_get "code" q) = true ->
  AuthManager.login srv None sessionId
    (AuthManager.UriDelivered q :: AuthManager.CancellationRequested :: rest) s
  = (Throw (LoginFailed CancelledOrFailed), s).
Proof.
  intros He Hs Hc. rewrite login_eq.
  unfold AuthManager.waitForAuthCallback, AuthManager.signals. cbn [fold_left].
  rewrite (handleUri_accepts srv sessionId q He Hs Hc).
  change (fold_left (AuthManager.signal srv sessionId) rest ?w)
    with (AuthManager.signals srv sessionId rest w).
  rewrite settled_signals by (cbn; discriminate). reflexivity.
Qed.

Lemma login_cancelled_during_exchange_witness :
  AuthManager.login (Scenario.server (OkJson Scenario.exchange1) (NotOk "unused"))
    None Scenario.nonce
    [AuthManager.UriDelivered [("code", "CODE1"); ("state", "abc123")];
     AuthManager.CancellationRequested;
     AuthManager.ExchangeSettles 5000]
    (mkManager None Scenario.healthy Scenario.healthy [])
  = (Throw (LoginFailed CancelledOrFailed),
     mkManager None Scenario.healthy Scenario.healthy []).
Proof.
  apply (login_cancelled_during_exchange
           (Scenario.server (OkJson Scenario.exchange1) (NotOk "unused"))
           Scenario.nonce [("code", "CODE1"); ("state", "abc123")]
           [AuthManager.ExchangeSettles 5000]); reflexivity.
Defined.

(** ** The interceptors of [ApiClient] *)

Section Interceptors.

Import ApiClient.


End Interceptors.


(** X18: the error handler of the response interceptor never resolves. For
    a status other than 401 it rejects with the error it was given and
    touches nothing. On a 401 it calls [getValidToken]; with a non-empty
    access token it rejects with the error it was given and runs no command;
    with none, it shows the "Authentication expired" message and runs the
    [seguro.login] command on the state [getValidToken] left, then rejects
    with the error it was given when the command returns, rejects with the
    command's error when the command throws, and stays unsettled as long as
    the command does not return; the manager is then the one the command
    leaves. *)
Theorem responseInterceptor_rejects
  (srv : Server) (now now_refresh : Z) (login_command : ApiClient.Command)
  (error : ApiClient.AxiosError) (s : Manager) :
  let r := ApiClient.responseInterceptor srv now now_refresh login_command error s in
  fst (fst r) <> ApiClient.Resolves /\
  (ApiClient.is_401 error = false -> r = (ApiClient.RejectsWith error, [], s)) /\
  (ApiClient.is_401 error = true ->
   exists v s1,
     AuthManager.getValidToken srv now now_refresh s = (Ok v, s1) /\
     (truthy v = true -> r = (ApiClient.RejectsWith error, [], s1)) /\
     (truthy v = false ->
        snd r = snd (login_command s1) /\
        snd (fst r)
        = ApiClient.ShowErrorMessage "Authentication expired. Please login again."
          :: ApiClient.ExecuteCommand "seguro.login"
          :: snd (fst (login_command s1)) /\
        fst (fst r)
        = match fst (fst (login_command s1)) with
          | Ok _ => ApiClient.RejectsWith error
          | Throw e => ApiClient.RejectsOther e
          | Hang => ApiClient.NeverSettles
          end)).
Proof.
  cbn zeta. unfold ApiClient.responseInterceptor.
  destruct (getValidToken_returns srv now now_refresh s) as (v & s1 & E & _).
  destruct (ApiClient.is_401 error) eqn:E401.
  - rewrite E. split; [|split; [discriminate|]].
    + destruct (truthy v); cbn [negb]; [cbn; discriminate|].
      destruct (login_command s1) as [[[u|e|] ui] s2]; cbn; discriminate.
    + intros _. exists v, s1. split; [reflexivity|]. split.
      * intros ->. reflexivity.
      * intros ->. cbn [negb].
        destruct (login_command s1) as [[[u|e|] ui] s2]; repeat split.
  - split; [cbn; discriminate|]. split; [reflexivity | discriminate].
Qed.

(** X19: a 401 response that arrives while the cached token is not expired
    by the local clock, and has a non-empty access token, changes nothing:
    no refresh, no backend call, no message and no login; the error is
    rejected as it came. *)
Theorem responseInterceptor_401_with_unexpired_token
  (srv : Server) (now now_refresh : Z) (login_command : ApiClient.Command)
  (error : ApiClient.AxiosError) (s : Manager) (tok : AuthToken) :
  ApiClient.status error = Some 401 ->
  currentToken s = Some tok ->
  now < AuthToken.expiresAt tok ->
  AuthToken.accessToken tok <> EmptyString ->
  ApiClient.responseInterceptor srv now now_refresh login_command error s
  = (ApiClient.RejectsWith error, [], s).
Proof.
  intros Hst Hcur Hnow Hacc. unfold ApiClient.responseInterceptor, ApiClient.is_401.
  rewrite Hst. cbn [Z.eqb Pos.eqb].
  rewrite (getValidToken_cached_unexpired srv now now_refresh s tok Hcur Hnow).
  cbn [truthy]. destruct (String.eqb_spec (AuthToken.accessToken tok) EmptyString);
    [contradiction | reflexivity].
Qed.

Lemma responseInterceptor_401_with_unexpired_token_witness :
  ApiClient.responseInterceptor
    (Scenario.server (NotOk "unused") (NotOk "unused")) 5000 5000
    (fun s => (Hang, [], s))
    (ApiClient.mkAxiosError (Some 401) "Request failed with status code 401")
    (mkManager (Some Scenario.token1) Scenario.healthy Scenario.healthy [])
  = (ApiClient.RejectsWith
       (ApiClient.mkAxiosError (Some 401) "Request failed with status code 401"),
     [], mkManager (Some Scenario.token1) Scenario.healthy Scenario.healthy []).
Proof.
  apply (responseInterceptor_401_with_unexpired_token
           (Scenario.server (NotOk "unused") (NotOk "unused")) 5000 5000
           (fun s => (Hang, [], s))
           (ApiClient.mkAxiosError (Some 401) "Request failed with status code 401")
           (mkManager (Some Scenario.token1) Scenario.healthy Scenario.healthy [])
           Scenario.token1).
  - reflexivity.
  - reflexivity.
  - cbn. lia.
  - discriminate.
Defined.

(** ** How the failures of the redirect and of the exchange reach [login] *)

(** X20: when the redirect was accepted and the token endpoint then answers
    with a status that is not ok, [login] throws "Login failed" with the
    cause "Token exchange failed: <statusText>", stores nothing, and no later
    signal changes that. *)
Theorem login_exchange_rejected
  (srv : Server) (sessionId : string) (q : list (string * string))
  (idle rest : list AuthManager.Signal) (now : Z) (statusText : string)
  (s : Manager) :
  truthy (query_get "error" q) = false ->
  query_get "state" q = Some sessionId ->
  truthy (query_get "code" q) = true ->
  Forall (fun sg => sg = AuthManager.TimerFires \/
                    exists q', sg = AuthManager.UriDelivered q') idle ->
  token_by_code srv (AuthManager.text_of (query_get "code" q)) = NotOk statusText ->
  AuthManager.login srv None sessionId
    (AuthManager.UriDelivered q :: idle ++ AuthManager.ExchangeSettles now :: rest) s
  = (Throw (LoginFailed (ExchangeFailed statusText)), s) /\
  error_to_string (LoginFailed (ExchangeFailed statusText))
  = ("Error: Login failed: Error: Token exchange failed: " ++ statusText)%string.
Proof.
  intros He Hs Hc Hidle Hsrv. split; [|reflexivity]. rewrite login_eq.
  unfold AuthManager.waitForAuthCallback, AuthManager.signals.
  cbn [fold_left]. rewrite (handleUri_accepts srv sessionId q He Hs Hc).
  rewrite fold_left_app.
  change (fold_left (AuthManager.signal srv sessionId) idle ?w)
    with (AuthManager.signals srv sessionId idle w).
  rewrite (in_flight_idle srv sessionId _ idle Hidle).
  cbn [fold_left AuthManager.signal AuthManager.exchanging].
  unfold AuthManager.onExchange, AuthManager.exchangeCodeForToken. rewrite Hsrv.
  change (fold_left (AuthManager.signal srv sessionId) rest ?w)
    with (AuthManager.signals srv sessionId rest w).
  rewrite settled_signals by (cbn; discriminate). reflexivity.
Qed.

Lemma login_exchange_rejected_witness :
  AuthManager.login (Scenario.server (NotOk "Bad Request") (NotOk "unused"))
    None Scenario.nonce
    [AuthManager.UriDelivered [("code", "CODE1"); ("state", "abc123")];
     AuthManager.TimerFires;
     AuthManager.ExchangeSettles 5000]
    (mkManager None Scenario.healthy Scenario.healthy [])
  = (Throw (LoginFailed (ExchangeFailed "Bad Request")),
     mkManager None Scenario.healthy Scenario.healthy []).
Proof.
  apply (proj1 (login_exchange_rejected
                  (Scenario.server (NotOk "Bad Request") (NotOk "unused"))
                  Scenario.nonce [("code", "CODE1"); ("state", "abc123")]
                  [AuthManager.TimerFires] [] 5000 "Bad Request"
                  (mkManager None Scenario.healthy Scenario.healthy [])
                  eq_refl eq_refl eq_refl
                  (Forall_cons _ (or_introl eq_refl) (Forall_nil _))
                  eq_refl)).
Defined.

(** X21: when the first signal is a redirect with the session's own state,
    no [error] parameter (or an empty one) and no [code] parameter (or an
    empty one), [login] throws "Login failed" with the cause "No
    authorization code received", whatever the server would answer and
    whatever signals follow. *)
Theorem login_missing_code
  (srv : Server) (sessionId : string) (q : list (string * string))
  (rest : list AuthManager.Signal) (s : Manager) :
  truthy (query_get "error" q) = false ->
  query_get "state" q = Some sessionId ->
  truthy (query_get "code" q) = false ->
  AuthManager.login srv None sessionId (AuthManager.UriDelivered q :: rest) s
  = (Throw (LoginFailed MissingCode), s).
Proof.
  intros He Hs Hc. rewrite login_eq.
  unfold AuthManager.waitForAuthCallback, AuthManager.signals. cbn [fold_left].
  assert (Hw : AuthManager.promise
                 (AuthManager.signal srv sessionId AuthManager.registered
                    (AuthManager.UriDelivered q))
               = AuthManager.Rejected MissingCode).
  { cbn. unfold AuthManager.handleUri. rewrite He, Hs, Hc. cbn.
    rewrite String.eqb_refl. reflexivity. }
  change (fold_left (AuthManager.signal srv sessionId) rest ?w)
    with (AuthManager.signals srv sessionId rest w).
  rewrite settled_signals by (rewrite Hw; discriminate).
  rewrite Hw. reflexivity.
Qed.

Lemma login_missing_code_witness :
  AuthManager.login (Scenario.server (OkJson Scenario.exchange1) (NotOk "unused"))
    None Scenario.nonce
    [AuthManager.UriDelivered [("code", EmptyString); ("state", "abc123")];
     AuthManager.ExchangeSettles 5000]
    (mkManager None Scenario.healthy Scenario.healthy [])
  = (Throw (LoginFailed MissingCode),
     mkManager None Scenario.healthy Scenario.healthy []).
Proof.
  apply (login_missing_code
           (Scenario.server (OkJson Scenario.exchange1) (NotOk "unused"))
           Scenario.nonce [("code", EmptyString); ("state", "abc123")]
           [AuthManager.ExchangeSettles 5000]); reflexivity.
Defined.

(** ** The outcome of a login attempt *)

Section AttemptOutcome.

Import AuthManager.

Variable srv : Server.
Variable sessionId : string.

(** What each signal does to a pending reachable state. *)
Lemma pending_signals w :
  coherent w -> promise w = Pending ->
  promise (signal srv sessionId w CancellationRequested) = Fulfilled None /\
  ((timer_armed w = true /\ handler_registered w = true /\ exchanging w = None /\
    promise (signal srv sessionId w TimerFires) = Rejected Timeout /\
    (forall now, signal srv sessionId w (ExchangeSettles now) = w) /\
    (forall q,
       promise (signal srv sessionId w (UriDelivered q))
       = if truthy (query_get "error" q)
         then Rejected (ProviderError (text_of (query_get "error" q)))
         else if state_differs (query_get "state" q) sessionId
              then Rejected InvalidState
              else if truthy (query_get "code" q) then Pending
                   else Rejected MissingCode) /\
    (forall q,
       truthy (query_get "error" q) = false ->
       state_differs (query_get "state" q) sessionId = false ->
       truthy (query_get "code" q) = true ->
       exchanging (signal srv sessionId w (UriDelivered q))
       = Some (text_of (query_get "code" q)))) \/
   (exists code,
      exchanging w = Some code /\
      timer_armed w = false /\ handler_registered w = false /\
      signal srv sessionId w TimerFires = w /\
      (forall q, signal srv sessionId w (UriDelivered q) = w) /\
      (forall now,
         promise (signal srv sessionId w (ExchangeSettles now))
         = match exchangeCodeForToken srv now code with
           | Ok t => Fulfilled (Some t)
           | Throw e => Rejected e
           | Hang => Pending
           end))).
Proof.
  destruct w as [p timer handler exch]. unfold coherent. cbn.
  intros Hc ->. split; [reflexivity|].
  destruct Hc as [(-> & -> & ->)|(-> & -> & Hx)].
  - left. repeat split.
    + intro q. cbn. unfold handleUri.
      destruct (truthy (query_get "error" q)); [reflexivity|].
      destruct (state_differs (query_get "state" q) sessionId); [reflexivity|].
      destruct (truthy (query_get "code" q)); reflexivity.
    + intros q He Hs Hq. cbn. unfold handleUri. rewrite He, Hs, Hq. reflexivity.
  - right. destruct exch as [code|]; [|contradiction].
    exists code. repeat split. intro now. cbn. unfold onExchange.
    destruct (exchangeCodeForToken srv now code); reflexivity.
Qed.

(** How [login] ends, by what the browser and the wait did and by whether a
    write works. *)
Lemma login_ends (open_fault : option string) (sgs : list Signal) (s : Manager) :
  let r := login srv open_fault sessionId sgs s in
  let p := promise (signals srv sessionId sgs registered) in
  (forall text, open_fault = Some text ->
     r = (Throw (LoginFailed (PlatformError text)), s)) /\
  (open_fault = None ->
     (p = Pending -> r = (Hang, s)) /\
     (p = Fulfilled None -> r = (Throw (LoginFailed CancelledOrFailed), s)) /\
     (forall e, p = Rejected e -> r = (Throw (LoginFailed e), s)) /\
     (forall t, p = Fulfilled (Some t) ->
        (write_fault (keytar s) = None \/ write_fault (secrets s) = None ->
           fst r = Ok tt /\ currentToken (snd r) = Some t) /\
        (forall kt st,
           write_fault (keytar s) = Some kt -> write_fault (secrets s) = Some st ->
           fst r = Throw (LoginFailed (PlatformError st)) /\
           currentToken (snd r) = currentToken s /\
           keytar (snd r) = keytar s /\ secrets (snd r) = secrets s))).
Proof.
  cbn zeta. rewrite login_eq. unfold waitForAuthCallback. split.
  - intros text ->. reflexivity.
  - intros ->. split; [|split; [|split]].
    + intros ->. reflexivity.
    + intros ->. reflexivity.
    + intros e ->. reflexivity.
    + intros t ->. rewrite storeToken_eq. cbn zeta. split.
      * intros [Hw|Hw]; rewrite Hw.
        -- split; reflexivity.
        -- destruct (write_fault (keytar s)); split; reflexivity.
      * intros kt st -> ->. repeat split.
Qed.

End AttemptOutcome.

(** C1 as the code has it. In every state [waitForAuthCallback] can reach:
    while the promise is pending a cancellation settles it as cancelled;
    before a redirect is accepted the timer firing settles it as timed out
    and a redirect settles it as provider error, invalid state or missing
    code, or is accepted and starts the exchange of its code;
    after a redirect is accepted the timer and the handler are off and the
    end of the exchange settles it with the token or the error of the
    exchange. Once it is settled it stands for exactly one of the seven
    outcomes, a further redirect, cancellation or timer firing leaves the
    whole state as it is, and no sequence of further signals changes the
    outcome. [login] itself ends with the outcome of the wait, except that it
    also fails when the browser cannot be opened, and when the wait completed
    with a token and both writes fail: it then throws and caches nothing. *)
Theorem login_attempt_outcome (srv : Server) (sessionId : string) :
  (forall w,
     reachable srv sessionId w ->
     (AuthManager.promise w = AuthManager.Pending ->
        AuthManager.promise
          (AuthManager.signal srv sessionId w AuthManager.CancellationRequested)
        = AuthManager.Fulfilled None /\
        ((AuthManager.timer_armed w = true /\
          AuthManager.handler_registered w = true /\
          AuthManager.exchanging w = None /\
          AuthManager.promise (AuthManager.signal srv sessionId w AuthManager.TimerFires)
          = AuthManager.Rejected Timeout /\
          (forall now,
             AuthManager.signal srv sessionId w (AuthManager.ExchangeSettles now) = w) /\
          (forall q,
             AuthManager.promise
               (AuthManager.signal srv sessionId w (AuthManager.UriDelivered q))
             = if truthy (query_get "error" q)
               then AuthManager.Rejected
                      (ProviderError (AuthManager.text_of (query_get "error" q)))
               else if AuthManager.state_differs (query_get "state" q) sessionId
                    then AuthManager.Rejected InvalidState
                    else if truthy (query_get "code" q) then AuthManager.Pending
                         else AuthManager.Rejected MissingCode) /\
          (forall q,
             truthy (query_get "error" q) = false ->
             AuthManager.state_differs (query_get "state" q) sessionId = false ->
             truthy (query_get "code" q) = true ->
             AuthManager.exchanging
               (AuthManager.signal srv sessionId w (AuthManager.UriDelivered q))
             = Some (AuthManager.text_of (query_get "code" q)))) \/
         (exists code,
            AuthManager.exchanging w = Some code /\
            AuthManager.timer_armed w = false /\
            AuthManager.handler_registered w = false /\
            AuthManager.signal srv sessionId w AuthManager.TimerFires = w /\
            (forall q,
               AuthManager.signal srv sessionId w (AuthManager.UriDelivered q) = w) /\
            (forall now,
               AuthManager.promise
                 (AuthManager.signal srv sessionId w (AuthManager.ExchangeSettles now))
               = match AuthManager.exchangeCodeForToken srv now code with
                 | Ok t => AuthManager.Fulfilled (Some t)
                 | Throw e => AuthManager.Rejected e
                 | Hang => AuthManager.Pending
                 end)))) /\
     (AuthManager.promise w <> AuthManager.Pending ->
        (exists! o, outcome_of (AuthManager.promise w) = Some o) /\
        (forall q, AuthManager.signal srv sessionId w (AuthManager.UriDelivered q) = w) /\
        AuthManager.signal srv sessionId w AuthManager.CancellationRequested = w /\
        AuthManager.signal srv sessionId w AuthManager.TimerFires = w /\
        (forall sgs,
           AuthManager.promise (AuthManager.signals srv sessionId sgs w)
           = AuthManager.promise w))) /\
  (forall (open_fault : option string) (sgs : list AuthManager.Signal) (s : Manager),
     let r := AuthManager.login srv open_fault sessionId sgs s in
     let p := AuthManager.promise
                (AuthManager.signals srv sessionId sgs AuthManager.registered) in
     (forall text, open_fault = Some text ->
        r = (Throw (LoginFailed (PlatformError text)), s)) /\
     (open_fault = None ->
        (p = AuthManager.Pending -> r = (Hang, s)) /\
        (p = AuthManager.Fulfilled None ->
           r = (Throw (LoginFailed CancelledOrFailed), s)) /\
        (forall e, p = AuthManager.Rejected e -> r = (Throw (LoginFailed e), s)) /\
        (forall t, p = AuthManager.Fulfilled (Some t) ->
           (write_fault (keytar s) = None \/ write_fault (secrets s) = None ->
              fst r = Ok tt /\ currentToken (snd r) = Some t) /\
           (forall kt st,
              write_fault (keytar s) = Some kt -> write_fault (secrets s) = Some st ->
              fst r = Throw (LoginFailed (PlatformError st)) /\
              currentToken (snd r) = currentToken s /\
              keytar (snd r) = keytar s /\ secrets (snd r) = secrets s)))).
Proof.
  split.
  - intros w Hr. pose proof (reachable_coherent srv sessionId w Hr) as Hc. split.
    + apply pending_signals. exact Hc.
    + intro Hp.
      destruct (settled_noop srv sessionId w Hc Hp) as (Hu & Hcancel & Htimer).
      split; [|split; [exact Hu | split; [exact Hcancel | split; [exact Htimer|]]]].
      * assert (Ho : outcome_of (AuthManager.promise w) <> None).
        { unfold coherent in Hc.
          destruct (AuthManager.promise w); [contradiction| |]; apply Hc. }
        destruct (outcome_of (AuthManager.promise w)) as [o|]; [|contradiction].
        exists o. split; [reflexivity | intros o' [= ->]; reflexivity].
      * intro sgs. apply settled_signals. exact Hp.
  - intros open_fault sgs s. apply login_ends.
Qed.

Lemma login_attempt_outcome_witness :
  let srv := Scenario.server (OkJson Scenario.exchange1) (NotOk "unused") in
  AuthManager.promise
    (AuthManager.signal srv Scenario.nonce AuthManager.registered AuthManager.TimerFires)
  = AuthManager.Rejected Timeout /\
  (let w := AuthManager.signal srv Scenario.nonce AuthManager.registered
              AuthManager.TimerFires in
   (exists! o, outcome_of (AuthManager.promise w) = Some o) /\
   AuthManager.signal srv Scenario.nonce w
     (AuthManager.UriDelivered [("code", "CODE1"); ("state", "abc123")]) = w /\
   AuthManager.signal srv Scenario.nonce w AuthManager.CancellationRequested = w) /\
  AuthManager.login srv None Scenario.nonce [AuthManager.TimerFires]
    (mkManager None Scenario.healthy Scenario.healthy [])
  = (Throw (LoginFailed Timeout), mkManager None Scenario.healthy Scenario.healthy []).
Proof.
  intro srv.
  destruct (login_attempt_outcome srv Scenario.nonce) as [Hw Hl].
  split; [|split].
  - destruct (proj1 (Hw AuthManager.registered (reach_registered srv Scenario.nonce))
                eq_refl) as (_ & [(_ & _ & _ & Ht & _)|(code & Hx & _)]).
    + exact Ht.
    + discriminate Hx.
  - cbn zeta.
    assert (Hr : reachable srv Scenario.nonce
                   (AuthManager.signal srv Scenario.nonce AuthManager.registered
                      AuthManager.TimerFires))
      by (apply reach_signal; apply reach_registered).
    destruct (proj2 (Hw _ Hr)) as (Ho & Hq & Hc & _).
    + cbn. discriminate.
    + split; [exact Ho | split; [apply Hq | exact Hc]].
  - destruct (Hl None [AuthManager.TimerFires]
                (mkManager None Scenario.healthy Scenario.healthy []))
      as (_ & H).
    destruct (H eq_refl) as (_ & _ & He & _). apply He. reflexivity.
Defined.

(** C1 as stated fails: the redirect is accepted and the exchange succeeds,
    so the wait completes with a token, but neither backend accepts the
    write; the login attempt ends with a "Login failed" that wraps the
    storage error, nothing is cached or stored: it did not complete with a
    token, was not cancelled, did not time out, and its failure is none of
    the four listed. *)
Lemma login_fails_after_completed_wait :
  let srv := Scenario.server (OkJson Scenario.exchange1) (NotOk "unused") in
  let s := mkManager None (Scenario.unavailable None) (Scenario.unavailable None) [] in
  let sgs := [AuthManager.UriDelivered [("code", "CODE1"); ("state", "abc123")];
              AuthManager.ExchangeSettles 5000] in
  let r := AuthManager.login srv None Scenario.nonce sgs s in
  AuthManager.waitForAuthCallback srv Scenario.nonce sgs
  = Ok (Some (AuthToken.mk "AT1" "RT1" 3605000 "u1")) /\
  fst r = Throw (LoginFailed (PlatformError "Error: unavailable")) /\
  fst r <> Ok tt /\
  currentToken (snd r) = None /\
  stored (keytar (snd r)) = None /\
  stored (secrets (snd r)) = None.
Proof. vm_compute. repeat split. discriminate. Qed.
